(** * Coin Collector: server tick loop and client interpolation

    A shallow embedding of [server.py] and [client.py].

    - Python numbers are kept behind the interface [PyNum]: the source is
      duck-typed, so every function below is written once and runs on any
      instance.  [binary64] is the arithmetic CPython really uses for
      [float] (IEEE 754 double precision, round to nearest even, given by
      the executable specification [SpecFloat]); [exact] is unrounded
      rational arithmetic.  The integers that meet floats in the source
      (radii, map size, speed, spawn coordinates) are far below [2^53], so
      their conversion by [of_Z] is exact.
      A coordinate is a [num] throughout, also where Python holds the
      equal [int] (a spawn position, a wall bound returned by [max] or
      [min]).  Python raises on a division by zero where IEEE returns an
      infinity; the one division of the source is guarded by its
      denominator being positive.
    - A Python [dict] is an association list in insertion order (the
      iteration order of the source), its keys pairwise distinct.
    - [time.time()] and [random.randint] are inputs of the functions that
      call them.
    - The coroutines of the server run on the [asyncio] loop, modelled by
      a step function on the game, the loop clock and the coroutines
      parked in [asyncio.sleep]; a parked coroutine goes on when the
      timer test of the loop lets it.  The resolution of the loop clock,
      which that test adds to the clock, is given by [LoopClock]. *)

From Stdlib Require Import ZArith List String Bool Lia QArith Lqa.
From Stdlib Require Import SpecFloat DecimalString.
Import ListNotations.

Set Implicit Arguments.
Set Warnings "-register-all".
Open Scope string_scope.
Open Scope list_scope.
Open Scope Z_scope.

(** ** Numbers *)

Class PyNum (num : Type) := {
  of_Z : Z -> num;
  add : num -> num -> num;
  sub : num -> num -> num;
  mul : num -> num -> num;
  div : num -> num -> num;
  ltb : num -> num -> bool;
  leb : num -> num -> bool;
  eqb : num -> num -> bool
}.

(** [math.sqrt] *)
Class PyMath (num : Type) := {
  sqrt : num -> num
}.

(** [time.get_clock_info('monotonic').resolution], which the [asyncio]
    loop keeps as [_clock_resolution]; it depends on the platform. *)
Class LoopClock (num : Type) := {
  clock_resolution : num
}.

Declare Scope py_scope.
Delimit Scope py_scope with py.
Infix "+" := add : py_scope.
Infix "-" := sub : py_scope.
Infix "*" := mul : py_scope.
Infix "/" := div : py_scope.
Infix "<?" := ltb : py_scope.
Infix "<=?" := leb : py_scope.
Infix "=?" := eqb : py_scope.

Section Builtins.
Context {num : Type} `{PyNum num}.

(** [a > b] *)
Definition gtb (a b : num) : bool := (b <? a)%py.

(** [max(a, b)]: the second argument replaces the first when it is
    strictly greater. *)
Definition py_max (a b : num) : num := if gtb b a then b else a.

(** [min(a, b)]: the second argument replaces the first when it is
    strictly smaller. *)
Definition py_min (a b : num) : num := if (b <? a)%py then b else a.

(** A decimal literal [n/d], such as [0.2] = [decimal 2 10]. *)
Definition decimal (n d : Z) : num := (of_Z n / of_Z d)%py.
End Builtins.

(** IEEE 754 double precision. *)
Definition float : Type := spec_float.
Definition prec : Z := 53.
Definition emax : Z := 1024.

#[export] Instance binary64 : PyNum float := {
  of_Z z := binary_normalize prec emax z 0 false;
  add := SFadd prec emax;
  sub := SFsub prec emax;
  mul := SFmul prec emax;
  div := SFdiv prec emax;
  ltb := SFltb;
  leb := SFleb;
  eqb := SFeqb
}.

#[export] Instance binary64_math : PyMath float := {
  sqrt := SFsqrt prec emax
}.

(** Unrounded arithmetic on the rationals. *)
#[export] Instance exact : PyNum Q := {
  of_Z := inject_Z;
  add := Qplus;
  sub := Qminus;
  mul := Qmult;
  div := Qdiv;
  ltb a b := negb (Qle_bool b a);
  leb := Qle_bool;
  eqb := Qeq_bool
}.

(** A float that is neither an infinity nor a NaN. *)
Definition is_finite (f : float) : bool :=
  match f with
  | S754_zero _ | S754_finite _ _ _ => true
  | _ => false
  end.

(** ** Values shared by both programs *)

(** What [json.loads] returns and [json.dumps] accepts. *)
Inductive json (num : Type) : Type :=
| JNull
| JBool (b : bool)
| JInt (z : Z)
| JFloat (f : num)
| JStr (s : string)
| JList (l : list (json num))
| JDict (l : list (string * json num)).

Arguments JNull {num}.
Arguments JBool {num} b.
Arguments JInt {num} z.
Arguments JStr {num} s.

Section Json.
Context {num : Type} `{PyNum num}.

(** [bool(v)], the truth value an [if] tests. *)
Definition truthy (v : json num) : bool :=
  match v with
  | JNull => false
  | JBool b => b
  | JInt z => negb (z =? 0)
  | JFloat f => negb (f =? of_Z 0)%py
  | JStr s => negb (String.eqb s "")
  | JList l => match l with [] => false | _ => true end
  | JDict l => match l with [] => false | _ => true end
  end.

(** [v == s] for a string literal [s]. *)
Definition is_str (v : json num) (s : string) : bool :=
  match v with
  | JStr s' => String.eqb s' s
  | _ => false
  end.

(** [v[k]] for a string literal [k]; [None] when Python raises
    ([KeyError], or [TypeError] when [v] is not a dict). *)
Definition get_item (v : json num) (k : string) : option (json num) :=
  match v with
  | JDict l =>
      (fix find (l : list (string * json num)) : option (json num) :=
         match l with
         | [] => None
         | (k', v') :: l' => if String.eqb k k' then Some v' else find l'
         end) l
  | _ => None
  end.
End Json.

(** [str(z)], the key [json.dumps] writes for an integer dict key. *)
Definition str (z : Z) : string := NilZero.string_of_int (Z.to_int z).

(** Python dictionaries. *)
Section Dict.
Variables K V : Type.
Variable keq : K -> K -> bool.

Definition dict : Type := list (K * V).

(** [d.get(k)] *)
Fixpoint dict_get (d : dict) (k : K) : option V :=
  match d with
  | [] => None
  | (k', v) :: d' => if keq k k' then Some v else dict_get d' k
  end.

(** [d[k] = v]: in place when the key is there, appended otherwise. *)
Fixpoint dict_set (d : dict) (k : K) (v : V) : dict :=
  match d with
  | [] => [(k, v)]
  | (k', v') :: d' =>
      if keq k k' then (k', v) :: d' else (k', v') :: dict_set d' k v
  end.

(** [d.pop(k, None)], the dictionary that is left. *)
Fixpoint dict_pop (d : dict) (k : K) : dict :=
  match d with
  | [] => []
  | (k', v') :: d' => if keq k k' then d' else (k', v') :: dict_pop d' k
  end.

Definition keys (d : dict) : list K := map fst d.
End Dict.

Record Coin : Type := {
  coin_id : Z;
  coin_x : Z;
  coin_y : Z
}.

Section Containers.
Context {num : Type}.

(** [k in v] for a string literal [k]: a key of a dict, an element of a
    list, a substring of a string; [None] is the [TypeError] of the other
    values. *)
Definition contains (k : string) (v : json num) : option bool :=
  match v with
  | JDict l => Some (existsb (fun e => String.eqb k (fst e)) l)
  | JList l =>
      Some (existsb (fun e => match e with
                              | JStr s => String.eqb s k
                              | _ => false
                              end) l)
  | JStr s => Some (match index 0 k s with Some _ => true | None => false end)
  | _ => None
  end.

(** [v[k] = w] for a string literal [k]; [None] is the [TypeError] of a
    value that is not a dict. *)
Definition set_item (v : json num) (k : string) (w : json num) : option (json num) :=
  match v with
  | JDict l => Some (JDict (dict_set String.eqb l k w))
  | _ => None
  end.

(** The list of the values when every element is there. *)
Fixpoint all_some (A : Type) (l : list (option A)) : option (list A) :=
  match l with
  | [] => Some []
  | Some a :: l' =>
      match all_some l' with
      | Some r => Some (a :: r)
      | None => None
      end
  | None :: _ => None
  end.
End Containers.

(** ** client.py *)

Module Client.
Section WithNum.
Context {num : Type} `{PyNum num}.

Definition INTERPOLATION_OFFSET : num := decimal 1 10.

(** A player entry of a received snapshot, or of the render state.
    [input] is [None] when the entry has no such key. *)
Record Player : Type := {
  x : num;
  y : num;
  color : Z * Z * Z;
  score : Z;
  input : option (json num)
}.

(** An entry of [state_buffer]: the decoded snapshot with [recv_time]. *)
Record Snapshot : Type := {
  t : num;
  players : dict string Player;
  coins : list Coin;
  status : string;
  recv_time : num
}.

Record GameClient : Type := {
  my_id : option Z;
  connected : bool;
  state_buffer : list Snapshot;
  current_input : option string;
  last_input_sent : option string
}.

Definition set_state_buffer (c : GameClient) (b : list Snapshot) : GameClient :=
  {| my_id := my_id c; connected := connected c; state_buffer := b;
     current_input := current_input c; last_input_sent := last_input_sent c |}.

Definition linear_interpolate (start end_ alpha : num) : num :=
  (start + (end_ - start) * alpha)%py.

(** The [while] loop of [get_render_state]. *)
Fixpoint trim (render_time : num) (buffer : list Snapshot) : list Snapshot :=
  match buffer with
  | _ :: ((s1 :: _ :: _) as rest) =>
      if (recv_time s1 <? render_time)%py then trim render_time rest
      else buffer
  | _ => buffer
  end.

Definition compute_alpha (render_time : num) (prev_state next_state : Snapshot) : num :=
  let time_diff := (recv_time next_state - recv_time prev_state)%py in
  let alpha :=
    if (time_diff <=? of_Z 0)%py then of_Z 1
    else ((render_time - recv_time prev_state) / time_diff)%py in
  py_max (of_Z 0) (py_min (of_Z 1) alpha).

(** The body of the [for] loop over [next_state['players']]. *)
Definition interpolate_player (prev_players : dict string Player) (alpha : num)
    (pid : string) (p_next : Player) : Player :=
  match dict_get String.eqb prev_players pid with
  | Some p_prev =>
      {| x := linear_interpolate (x p_prev) (x p_next) alpha;
         y := linear_interpolate (y p_prev) (y p_next) alpha;
         color := color p_next;
         score := score p_next;
         input := None |}
  | None => p_next
  end.

Definition RenderState : Type := dict string Player * list Coin * string.

(** [get_render_state], with [time.time()] as [now]; returns the tuple
    and the client with its trimmed buffer. *)
Definition get_render_state (now : num) (self : GameClient)
    : RenderState * GameClient :=
  let current_server_time := now in
  let render_time := (current_server_time - INTERPOLATION_OFFSET)%py in
  let buffer := trim render_time (state_buffer self) in
  let self := set_state_buffer self buffer in
  match buffer with
  | [] => (([], [], "CONNECTING"), self)
  | [s] => ((players s, coins s, status s), self)
  | prev_state :: next_state :: _ =>
      let alpha := compute_alpha render_time prev_state next_state in
      let interpolated_players :=
        map (fun '(pid, p_next) =>
               (pid, interpolate_player (players prev_state) alpha pid p_next))
            (players next_state) in
      ((interpolated_players, coins next_state, status next_state), self)
  end.

(** *** The input of a frame *)

(** The keys [network_loop] looks at in [pygame.key.get_pressed()]. *)
Record Keys : Type := {
  K_w : bool; K_UP : bool;
  K_s : bool; K_DOWN : bool;
  K_a : bool; K_LEFT : bool;
  K_d : bool; K_RIGHT : bool
}.

(** The [if]/[elif] chain over the keys. *)
Definition held_direction (keys : Keys) : option string :=
  if K_w keys || K_UP keys then Some "UP"
  else if K_s keys || K_DOWN keys then Some "DOWN"
  else if K_a keys || K_LEFT keys then Some "LEFT"
  else if K_d keys || K_RIGHT keys then Some "RIGHT"
  else None.

(** [direction != self.current_input] *)
Definition direction_differs (a b : option string) : bool :=
  match a, b with
  | None, None => false
  | Some s, Some s' => negb (String.eqb s s')
  | _, _ => true
  end.

(** [json.dumps({"type": "input", "direction": direction})] *)
Definition input_message (direction : option string) : json num :=
  JDict [("type", JStr "input");
         ("direction", match direction with
                       | Some d => JStr d
                       | None => JNull
                       end)].

Definition set_current_input (c : GameClient) (v : option string) : GameClient :=
  {| my_id := my_id c; connected := connected c; state_buffer := state_buffer c;
     current_input := v; last_input_sent := last_input_sent c |}.

(** The input handling of one turn of [network_loop]: the client and the
    message it sends, if any.  The turn awaits [websocket.send] of that
    message before it calls [get_render_state]; [receive_handler] can
    run at that point and append to the buffer. *)
Definition send_input (self : GameClient) (keys : Keys)
    : GameClient * option (json num) :=
  let direction := held_direction keys in
  if direction_differs direction (current_input self)
  then (set_current_input self direction, Some (input_message direction))
  else (self, None).

(** *** The receive loop *)

(** What [receive_handler] writes: [self.my_id] and [self.state_buffer],
    holding the decoded documents themselves.  [listening] is false once
    the handler has returned. *)
Record Inbox : Type := {
  assigned_id : option (json num);
  received : list (json num);
  listening : bool
}.

Definition hang_up (r : Inbox) : Inbox :=
  {| assigned_id := assigned_id r; received := received r; listening := false |}.

(** One iteration of the loop of [receive_handler].  [message] is [None]
    when [json.loads] raises; [now] is the [time.time()] of the stamp.
    The [try] encloses the loop: any exception ends the handler. *)
Definition receive (r : Inbox) (now : num) (message : option (json num)) : Inbox :=
  if negb (listening r) then r
  else
    match message with
    | None => hang_up r
    | Some data =>
        match contains "type" data with
        | None => hang_up r
        | Some has_type =>
            let is_init :=
              if has_type
              then match get_item data "type" with
                   | Some ty => Some (is_str ty "init")
                   | None => None
                   end
              else Some false in
            match is_init with
            | None => hang_up r
            | Some true =>
                match get_item data "id" with
                | Some id =>
                    {| assigned_id := Some id; received := received r;
                       listening := true |}
                | None => hang_up r
                end
            | Some false =>
                match contains "players" data with
                | None => hang_up r
                | Some false => r
                | Some true =>
                    match set_item data "recv_time" (JFloat now) with
                    | Some data =>
                        {| assigned_id := assigned_id r;
                           received := received r ++ [data];
                           listening := true |}
                    | None => hang_up r
                    end
                end
            end
        end
    end.

(** [receive_handler] over the messages of the connection, each with the
    clock reading at its arrival. *)
Definition receive_handler (r : Inbox) (messages : list (num * option (json num)))
    : Inbox :=
  fold_left (fun r m => receive r (fst m) (snd m)) messages r.

(** *** A buffered document as the render path reads it

    [get_render_state] and [draw] index a buffered document by the keys
    recv_time, players, coins, status and, per player, x, y, color,
    score.  [as_snapshot] is that reading; it is [None] when a key is
    missing or holds a value of another kind. *)

Definition as_number (v : json num) : option num :=
  match v with
  | JInt z => Some (of_Z z)
  | JFloat f => Some f
  | _ => None
  end.

Definition as_player (v : json num) : option Player :=
  match get_item v "x", get_item v "y", get_item v "color", get_item v "score" with
  | Some vx, Some vy, Some (JList [JInt r; JInt g; JInt b]), Some (JInt s) =>
      match as_number vx, as_number vy with
      | Some px, Some py =>
          Some {| x := px; y := py; color := (r, g, b); score := s;
                  input := get_item v "input" |}
      | _, _ => None
      end
  | _, _, _, _ => None
  end.

Definition as_coin (v : json num) : option Coin :=
  match get_item v "id", get_item v "x", get_item v "y" with
  | Some (JInt i), Some (JInt cx), Some (JInt cy) =>
      Some {| coin_id := i; coin_x := cx; coin_y := cy |}
  | _, _, _ => None
  end.

Definition as_snapshot (v : json num) : option Snapshot :=
  match get_item v "t", get_item v "players", get_item v "coins",
        get_item v "status", get_item v "recv_time" with
  | Some vt, Some (JDict ps), Some (JList cs), Some (JStr st), Some vr =>
      match as_number vt, as_number vr,
            all_some (map (fun e => match as_player (snd e) with
                                    | Some p => Some (fst e, p)
                                    | None => None
                                    end) ps),
            all_some (map as_coin cs) with
      | Some st_t, Some st_r, Some players_, Some coins_ =>
          Some {| t := st_t; players := players_; coins := coins_;
                  status := st; recv_time := st_r |}
      | _, _, _, _ => None
      end
  | _, _, _, _, _ => None
  end.
End WithNum.
End Client.

(** ** server.py *)

Module Server.
Section WithNum.
Context {num : Type} `{PyNum num} `{PyMath num}.

Definition TICK_RATE : Z := 60.
Definition ARTIFICIAL_LATENCY : num := decimal 2 10.
Definition MAP_WIDTH : Z := 800.
Definition MAP_HEIGHT : Z := 600.
Definition PLAYER_SPEED : Z := 300.
Definition PLAYER_SIZE : Z := 20.
Definition COIN_SIZE : Z := 10.
Definition COIN_SPAWN_RATE : num := of_Z 3.

(** A value of [self.players]: the dict [register] builds, whose keys
    are never added to nor deleted. *)
Record Player : Type := {
  x : num;
  y : num;
  color : Z * Z * Z;
  score : Z;
  input : json num
}.

(** A connection object, known by its identity only. *)
Definition websocket : Type := nat.

Record GameServer : Type := {
  clients : dict websocket Z;
  players : dict Z Player;
  coins : list Coin;
  coin_counter : Z;
  last_coin_spawn : num;
  running : bool;
  start_time : num;
  next_player_id : Z
}.

Definition set_x (p : Player) (v : num) : Player :=
  {| x := v; y := y p; color := color p; score := score p; input := input p |}.
Definition set_y (p : Player) (v : num) : Player :=
  {| x := x p; y := v; color := color p; score := score p; input := input p |}.
Definition set_score (p : Player) (v : Z) : Player :=
  {| x := x p; y := y p; color := color p; score := v; input := input p |}.
Definition set_input (p : Player) (v : json num) : Player :=
  {| x := x p; y := y p; color := color p; score := score p; input := v |}.

Definition set_clients (g : GameServer) (v : dict websocket Z) : GameServer :=
  {| clients := v; players := players g; coins := coins g;
     coin_counter := coin_counter g; last_coin_spawn := last_coin_spawn g;
     running := running g; start_time := start_time g;
     next_player_id := next_player_id g |}.
Definition set_players (g : GameServer) (v : dict Z Player) : GameServer :=
  {| clients := clients g; players := v; coins := coins g;
     coin_counter := coin_counter g; last_coin_spawn := last_coin_spawn g;
     running := running g; start_time := start_time g;
     next_player_id := next_player_id g |}.
Definition set_coins (g : GameServer) (v : list Coin) : GameServer :=
  {| clients := clients g; players := players g; coins := v;
     coin_counter := coin_counter g; last_coin_spawn := last_coin_spawn g;
     running := running g; start_time := start_time g;
     next_player_id := next_player_id g |}.
Definition set_coin_counter (g : GameServer) (v : Z) : GameServer :=
  {| clients := clients g; players := players g; coins := coins g;
     coin_counter := v; last_coin_spawn := last_coin_spawn g;
     running := running g; start_time := start_time g;
     next_player_id := next_player_id g |}.
Definition set_last_coin_spawn (g : GameServer) (v : num) : GameServer :=
  {| clients := clients g; players := players g; coins := coins g;
     coin_counter := coin_counter g; last_coin_spawn := v;
     running := running g; start_time := start_time g;
     next_player_id := next_player_id g |}.
Definition set_next_player_id (g : GameServer) (v : Z) : GameServer :=
  {| clients := clients g; players := players g; coins := coins g;
     coin_counter := coin_counter g; last_coin_spawn := last_coin_spawn g;
     running := running g; start_time := start_time g;
     next_player_id := v |}.

(** [GameServer.__init__]; both [time.time()] calls are inputs. *)
Definition init (now1 now2 : num) : GameServer :=
  {| clients := []; players := []; coins := []; coin_counter := 0;
     last_coin_spawn := now1; running := false; start_time := now2;
     next_player_id := 1 |}.

(** [spawn_coin]; [rx], [ry] are the two [random.randint] draws. *)
Definition spawn_coin (self : GameServer) (rx ry : Z) : GameServer :=
  let coin := {| coin_id := coin_counter self; coin_x := rx; coin_y := ry |} in
  let self := set_coins self (coins self ++ [coin]) in
  set_coin_counter self (coin_counter self + 1).

(** The wall clamp of [check_collisions]. *)
Definition clamp_walls (p : Player) : Player :=
  let p := set_x p (py_max (of_Z PLAYER_SIZE)
                      (py_min (of_Z (MAP_WIDTH - PLAYER_SIZE)) (x p))) in
  set_y p (py_max (of_Z PLAYER_SIZE)
             (py_min (of_Z (MAP_HEIGHT - PLAYER_SIZE)) (y p))).

Definition distance (p : Player) (coin : Coin) : num :=
  let dx := (x p - of_Z (coin_x coin))%py in
  let dy := (y p - of_Z (coin_y coin))%py in
  sqrt (dx * dx + dy * dy)%py.

(** The test [distance < (PLAYER_SIZE + COIN_SIZE)]. *)
Definition touches (p : Player) (coin : Coin) : bool :=
  (distance p coin <? of_Z (PLAYER_SIZE + COIN_SIZE))%py.

(** One iteration of the loop over [self.coins]; the state is the player
    and [remaining_coins]. *)
Definition coin_step (acc : Player * list Coin) (coin : Coin) : Player * list Coin :=
  let '(p, remaining_coins) := acc in
  if touches p coin then (set_score p (score p + 1), remaining_coins)
  else (p, remaining_coins ++ [coin]).

(** [check_collisions]; [None] is the [KeyError] of [self.players[player_id]]. *)
Definition check_collisions (self : GameServer) (player_id : Z) : option GameServer :=
  match dict_get Z.eqb (players self) player_id with
  | None => None
  | Some p =>
      let p := clamp_walls p in
      let '(p, remaining_coins) := fold_left coin_step (coins self) (p, []) in
      Some (set_coins (set_players self (dict_set Z.eqb (players self) player_id p))
              remaining_coins)
  end.

(** The movement of one player in [update]. *)
Definition move (p : Player) (dt : num) : Player :=
  let move_dir := input p in
  if truthy move_dir then
    if is_str move_dir "UP" then set_y p (y p - of_Z PLAYER_SPEED * dt)%py
    else if is_str move_dir "DOWN" then set_y p (y p + of_Z PLAYER_SPEED * dt)%py
    else if is_str move_dir "LEFT" then set_x p (x p - of_Z PLAYER_SPEED * dt)%py
    else if is_str move_dir "RIGHT" then set_x p (x p + of_Z PLAYER_SPEED * dt)%py
    else p
  else p.

(** The body of the loop over [self.players.items()]: the player object
    of the iteration is the one stored under [pid]. *)
Definition update_player (dt : num) (state : option GameServer) (pid : Z)
    : option GameServer :=
  match state with
  | None => None
  | Some self =>
      match dict_get Z.eqb (players self) pid with
      | None => None
      | Some p =>
          check_collisions
            (set_players self (dict_set Z.eqb (players self) pid (move p dt))) pid
      end
  end.

(** [update]; [now] is [time.time()], [rx], [ry] the draws of [spawn_coin]. *)
Definition update (self : GameServer) (now dt : num) (rx ry : Z) : option GameServer :=
  if Z.of_nat (List.length (players self)) <? 2 then Some self
  else
    let self :=
      if gtb (now - last_coin_spawn self)%py COIN_SPAWN_RATE
      then set_last_coin_spawn (spawn_coin self rx ry) now
      else self in
    fold_left (update_player dt) (keys (players self)) (Some self).

(** [json.dumps] of one player dict: every key of the dict is written.
    A coordinate is written here as the float it is in the model; where
    Python holds the [int] of that value (a player that has not moved,
    or stands at a wall), [json.dumps] writes the JSON integer: see
    [dumps_number]. *)
Definition player_json (p : Player) : json num :=
  let '(r, g, b) := color p in
  JDict [("x", JFloat (x p)); ("y", JFloat (y p));
         ("color", JList [JInt r; JInt g; JInt b]);
         ("score", JInt (score p));
         ("input", input p)].

Definition coin_json (c : Coin) : json num :=
  JDict [("id", JInt (coin_id c)); ("x", JInt (coin_x c));
         ("y", JInt (coin_y c))].

(** [broadcast_state]: the message handed to [delayed_broadcast], as the
    JSON document [json.dumps] writes; [None] when there is no client. *)
Definition broadcast_state (self : GameServer) (now : num) : option (json num) :=
  match clients self with
  | [] => None
  | _ =>
      Some (JDict
        [("t", JFloat now);
         ("players",
           JDict (map (fun '(pid, p) => (str pid, player_json p)) (players self)));
         ("coins", JList (map coin_json (coins self)));
         ("status",
           JStr (if 2 <=? Z.of_nat (List.length (players self))
                 then "PLAYING" else "WAITING_FOR_PLAYERS"))])
  end.

(** [handle_client_message] after its [asyncio.sleep]; [message] is
    [None] when [json.loads] raises.  Every exception is caught and
    leaves the state as it was. *)
Definition apply_message (self : GameServer) (ws : websocket)
    (message : option (json num)) : GameServer :=
  match message with
  | None => self
  | Some data =>
      match dict_get Nat.eqb (clients self) ws with
      | None => self
      | Some pid =>
          if pid =? 0 then self
          else
            match get_item data "type" with
            | None => self
            | Some ty =>
                if is_str ty "input" then
                  match get_item data "direction", dict_get Z.eqb (players self) pid with
                  | Some direction, Some p =>
                      set_players self
                        (dict_set Z.eqb (players self) pid (set_input p direction))
                  | _, _ => self
                  end
                else self
            end
      end
  end.

(** [register]; the five draws of [random.randint] are inputs.  Returns
    the state and the handshake message. *)
Definition register (self : GameServer) (ws : websocket)
    (rx ry cr cg cb : Z) : GameServer * json num :=
  let pid := next_player_id self in
  let self := set_next_player_id self (next_player_id self + 1) in
  let self := set_clients self (dict_set Nat.eqb (clients self) ws pid) in
  let p := {| x := of_Z rx; y := of_Z ry; color := (cr, cg, cb);
              score := 0; input := JNull |} in
  let self := set_players self (dict_set Z.eqb (players self) pid p) in
  (self, JDict [("type", JStr "init"); ("id", JInt pid)]).

(** [unregister] *)
Definition unregister (self : GameServer) (ws : websocket) : GameServer :=
  match dict_get Nat.eqb (clients self) ws with
  | None => self
  | Some pid =>
      let self := set_clients self (dict_pop Nat.eqb (clients self) ws) in
      if pid =? 0 then self
      else set_players self (dict_pop Z.eqb (players self) pid)
  end.

(** *** The event loop

    [asyncio] runs the coroutines of the server on one thread.  The
    handler starts a [handle_client_message] task for each message it
    reads, and the task first parks itself in
    [asyncio.sleep(ARTIFICIAL_LATENCY)].  [sleep] goes through
    [loop.call_later(delay, ...)], which sets the timer to
    [loop.time() + delay]; a turn of the loop ([_run_once]) reads
    [end_time = self.time() + self._clock_resolution] and leaves parked
    every timer with [handle._when >= end_time]; the others are made
    ready and their coroutines go on. *)

(** A [handle_client_message] coroutine suspended in its [sleep]. *)
Record Sleeper : Type := {
  wake : num;
  sleeper_ws : websocket;
  sleeper_message : option (json num)
}.

Record EventLoop : Type := {
  game : GameServer;
  clock : num;
  sleeping : list Sleeper
}.

Definition set_game (l : EventLoop) (g : GameServer) : EventLoop :=
  {| game := g; clock := clock l; sleeping := sleeping l |}.

(** [handle_client_message] up to its [await]: nothing of the game is
    read or written before the coroutine is parked.  [wake] is the
    timer that [call_later] sets, [self.time() + delay]. *)
Definition handle_client_message (l : EventLoop) (ws : websocket)
    (message : option (json num)) : EventLoop :=
  {| game := game l; clock := clock l;
     sleeping := sleeping l ++
       [{| wake := (clock l + ARTIFICIAL_LATENCY)%py;
           sleeper_ws := ws; sleeper_message := message |}] |}.

Fixpoint remove_nth (A : Type) (i : nat) (l : list A) : list A :=
  match i, l with
  | _, [] => []
  | O, _ :: l' => l'
  | S i', a :: l' => a :: remove_nth i' l'
  end.

Context `{LoopClock num}.

(** The rest of [handle_client_message], run when the loop resumes the
    [i]-th sleeper.  The test is the one of [_run_once]: the sleeper
    stays parked when its timer is at or after the clock plus the clock
    resolution.  (The loop readies the timers in the order of their
    deadlines and the coroutine goes on at that turn or a later one; the
    clock does not go back, so the test holds at the resumption too.) *)
Definition resume (l : EventLoop) (i : nat) : EventLoop :=
  match nth_error (sleeping l) i with
  | Some s =>
      let end_time := (clock l + clock_resolution)%py in
      if (end_time <=? wake s)%py then l
      else
        {| game := apply_message (game l) (sleeper_ws s) (sleeper_message s);
           clock := clock l;
           sleeping := remove_nth i (sleeping l) |}
  | None => l
  end.

(** What can happen at a turn of the loop. *)
Inductive event : Type :=
| Connect (ws : websocket) (rx ry cr cg cb : Z)
| Receive (ws : websocket) (message : option (json num))
| Resume (i : nat)
| Disconnect (ws : websocket)
| Tick (now dt : num) (rx ry : Z)
| Pass (time : num).

Definition step (l : EventLoop) (e : event) : EventLoop :=
  match e with
  | Connect ws rx ry cr cg cb =>
      set_game l (fst (register (game l) ws rx ry cr cg cb))
  | Receive ws message => handle_client_message l ws message
  | Resume i => resume l i
  | Disconnect ws => set_game l (unregister (game l) ws)
  | Tick now dt rx ry =>
      match update (game l) now dt rx ry with
      | Some g => set_game l g
      | None => l
      end
  | Pass time =>
      if (clock l <=? time)%py
      then {| game := game l; clock := time; sleeping := sleeping l |}
      else l
  end.

Definition run (l : EventLoop) (events : list event) : EventLoop :=
  fold_left step events l.

(** [delayed_broadcast] after its sleep: one [send] of the message for
    each connection of [self.clients] as it is by then. *)
Definition delayed_broadcast (self : GameServer) (message : json num)
    : list (websocket * json num) :=
  map (fun ws => (ws, message)) (keys (clients self)).

(** One turn of the loop of [game_loop].  [current_time], [now], [stamp]
    and [end_time] are the four readings of [time.time()]: at the top of
    the turn, in [update], in [broadcast_state] and after it.  Returns
    the game, the message handed to [delayed_broadcast] if any, the
    argument of [asyncio.sleep] and the new [last_time]; [None] when
    [update] raises. *)
Definition game_loop_turn (self : GameServer)
    (last_time current_time now stamp end_time : num) (rx ry : Z)
    : option (GameServer * option (json num) * num * num) :=
  let dt := (current_time - last_time)%py in
  let last_time := current_time in
  match update self now dt rx ry with
  | None => None
  | Some self =>
      let message := broadcast_state self stamp in
      let elapsed := (end_time - current_time)%py in
      let sleep_time := py_max (of_Z 0) ((of_Z 1 / of_Z TICK_RATE) - elapsed)%py in
      Some (self, message, sleep_time, last_time)
  end.
End WithNum.
End Server.

(** ** Notions used in the statements *)

(** [v] lies in the closed interval with the ends [a] and [b]. *)
Definition between (a v b : Q) : Prop :=
  (a <= v /\ v <= b)%Q \/ (b <= v /\ v <= a)%Q.

Section Sweep.
Context {num : Type} `{PyNum num} `{PyMath num}.
Import Server.

(** The position of a player once its iteration of [update] is over. *)
Definition placed (dt : num) (p : Player) : Player := clamp_walls (move p dt).

(** A player after its iteration of [update], run against [coins]. *)
Definition settle (dt : num) (p : Player) (coins : list Coin) : Player :=
  let q := placed dt p in
  set_score q (score q + Z.of_nat (List.length (filter (touches q) coins))).

(** The coins that iteration leaves. *)
Definition leftover (dt : num) (p : Player) (coins : list Coin) : list Coin :=
  filter (fun c => negb (touches (placed dt p) c)) coins.

(** The loop of [update] over the players, entry by entry. *)
Fixpoint sweep (dt : num) (ps : dict Z (@Player num)) (coins : list Coin)
    : dict Z (@Player num) * list Coin :=
  match ps with
  | [] => ([], coins)
  | (pid, p) :: rest =>
      let '(rest', coins') := sweep dt rest (leftover dt p coins) in
      ((pid, settle dt p coins) :: rest', coins')
  end.

(** Some player of [ps] touches [c] once placed. *)
Definition touched (dt : num) (ps : dict Z (@Player num)) (c : Coin) : bool :=
  existsb (fun e => touches (placed dt (snd e)) c) ps.

(** The state [update] runs its player loop on: after the coin spawner. *)
Definition spawned (self : GameServer) (now : num) (rx ry : Z) : GameServer :=
  if gtb (now - last_coin_spawn self)%py COIN_SPAWN_RATE
  then set_last_coin_spawn (spawn_coin self rx ry) now
  else self.

Definition total_score (ps : dict Z (@Player num)) : Z :=
  fold_right (fun e acc => score (snd e) + acc) 0 ps.

(** The loop as the server starts it. *)
Definition boot (now1 now2 clock0 : num) : EventLoop :=
  {| game := init now1 now2; clock := clock0; sleeping := [] |}.

(** What every state the server reaches satisfies: player identities
    are distinct and below the next one to hand out, coin identities are
    distinct and below the counter. *)
Definition wf (g : @GameServer num) : Prop :=
  NoDup (keys (players g)) /\
  (forall k, In k (keys (players g)) -> k < next_player_id g) /\
  NoDup (map coin_id (coins g)) /\
  (forall c, In c (coins g) -> coin_id c < coin_counter g).

(** The coin identity [id] has been handed out and no live coin has it. *)
Definition retired (id : Z) (g : @GameServer num) : Prop :=
  id < coin_counter g /\ forall c, In c (coins g) -> coin_id c <> id.

(** The ticks of a list of inputs, as events of the loop. *)
Definition ticks (inputs : list (num * num * Z * Z)) : list (@event num) :=
  map (fun '(now, dt, rx, ry) => Tick now dt rx ry) inputs.
End Sweep.

Section MoreNotions.
Import Server.

(** What every state the server reaches satisfies on the side of the
    connections: they are distinct, and every identity handed to one is
    at least 1 and below the next one to hand out. *)
Definition wf_clients (num : Type) (g : @GameServer num) : Prop :=
  NoDup (keys (clients g)) /\
  1 <= next_player_id g /\
  (forall ws pid, In (ws, pid) (clients g) -> 1 <= pid < next_player_id g).

(** The player [pid], while it is registered, has the color [c] and a
    score of at least [s]; and [pid] has been handed out. *)
Definition keeps (num : Type) (pid : Z) (c : Z * Z * Z) (s : Z)
    (g : @GameServer num) : Prop :=
  pid < next_player_id g /\
  forall p, In (pid, p) (players g) -> color p = c /\ s <= score p.

(** The player stands where the walls allow: its center is at least a
    radius away from each edge of the map. *)
Definition inside (p : @Player float) : Prop :=
  (of_Z PLAYER_SIZE <=? x p)%py = true /\
  (x p <=? of_Z (MAP_WIDTH - PLAYER_SIZE))%py = true /\
  (of_Z PLAYER_SIZE <=? y p)%py = true /\
  (y p <=? of_Z (MAP_HEIGHT - PLAYER_SIZE))%py = true.

(** The position draws of a [Connect] are such as
    [random.randint(100, 700)] and [random.randint(100, 500)] return. *)
Definition draws_in_range (num : Type) (e : @event num) : Prop :=
  match e with
  | Connect _ rx ry _ _ _ => 100 <= rx <= 700 /\ 100 <= ry <= 500
  | _ => True
  end.

(** The player as a snapshot shows it to the client. *)
Definition shown (num : Type) (p : @Player num) : @Client.Player num :=
  {| Client.x := x p; Client.y := y p; Client.color := color p;
     Client.score := score p; Client.input := Some (input p) |}.

(** What [json.dumps] writes for a number that the model holds as [a]:
    the JSON float [a] where Python holds a [float], the JSON integer
    [z] with [a = of_Z z] where Python holds the [int] [z]. *)
Definition dumps_number (num : Type) `{PyNum num} (a : num) (v : json num) : Prop :=
  v = JFloat a \/ exists z : Z, a = of_Z z /\ v = JInt z.

(** [json.dumps] of one player dict, each coordinate an [int] or a
    [float]. *)
Definition dumps_player (num : Type) `{PyNum num} (p : @Player num) (v : json num)
    : Prop :=
  exists vx vy,
    dumps_number (x p) vx /\ dumps_number (y p) vy /\
    v = JDict [("x", vx); ("y", vy);
               ("color", let '(r, g, b) := color p in JList [JInt r; JInt g; JInt b]);
               ("score", JInt (score p));
               ("input", input p)].

(** [json.dumps(state)] for the [state] that [broadcast_state] builds at
    the time [now]. *)
Definition dumps_state (num : Type) `{PyNum num} (g : @GameServer num) (now : num)
    (message : json num) : Prop :=
  exists entries,
    Forall2 (fun e w => fst w = str (fst e) /\ dumps_player (snd e) (snd w))
      (players g) entries /\
    message =
      JDict [("t", JFloat now);
             ("players", JDict entries);
             ("coins", JList (map coin_json (coins g)));
             ("status",
               JStr (if 2 <=? Z.of_nat (List.length (players g))
                     then "PLAYING" else "WAITING_FOR_PLAYERS"))].
End MoreNotions.

(** ** Sample data *)

Module Sample.
(** Two snapshots of player 3, received at 0.0 and 0.1, rendered at 1.0. *)
Definition p_prev : @Client.Player float :=
  {| Client.x := decimal 202 10; Client.y := of_Z 100;
     Client.color := (255, 0, 0); Client.score := 0;
     Client.input := Some JNull |}.

Definition p_next : @Client.Player float :=
  {| Client.x := decimal 524 10; Client.y := of_Z 100;
     Client.color := (255, 0, 0); Client.score := 1;
     Client.input := Some JNull |}.

Definition snapshot0 : @Client.Snapshot float :=
  {| Client.t := of_Z 0; Client.players := [("3", p_prev)];
     Client.coins := []; Client.status := "PLAYING";
     Client.recv_time := of_Z 0 |}.

Definition snapshot1 : @Client.Snapshot float :=
  {| Client.t := decimal 1 10; Client.players := [("3", p_next)];
     Client.coins := []; Client.status := "PLAYING";
     Client.recv_time := decimal 1 10 |}.

Definition client : @Client.GameClient float :=
  {| Client.my_id := Some 3; Client.connected := true;
     Client.state_buffer := [snapshot0; snapshot1];
     Client.current_input := None; Client.last_input_sent := None |}.

Definition now : float := of_Z 1.

(** A third snapshot, received at 0.2, and the buffer of all three. *)
Definition snapshot2 : @Client.Snapshot float :=
  {| Client.t := decimal 2 10; Client.players := [("3", p_next)];
     Client.coins := []; Client.status := "PLAYING";
     Client.recv_time := decimal 2 10 |}.

Definition client3 : @Client.GameClient float :=
  {| Client.my_id := Some 3; Client.connected := true;
     Client.state_buffer := [snapshot0; snapshot1; snapshot2];
     Client.current_input := None; Client.last_input_sent := None |}.

(** The same two snapshots in unrounded arithmetic. *)
Definition e_prev : @Client.Player Q :=
  {| Client.x := decimal 202 10; Client.y := of_Z 100;
     Client.color := (255, 0, 0); Client.score := 0;
     Client.input := Some JNull |}.

Definition e_next : @Client.Player Q :=
  {| Client.x := decimal 524 10; Client.y := of_Z 100;
     Client.color := (255, 0, 0); Client.score := 1;
     Client.input := Some JNull |}.

Definition e_snapshot0 : @Client.Snapshot Q :=
  {| Client.t := of_Z 0; Client.players := [("3", e_prev)];
     Client.coins := []; Client.status := "PLAYING";
     Client.recv_time := of_Z 0 |}.

Definition e_snapshot1 : @Client.Snapshot Q :=
  {| Client.t := decimal 1 10; Client.players := [("3", e_next)];
     Client.coins := []; Client.status := "PLAYING";
     Client.recv_time := decimal 1 10 |}.

Definition e_client : @Client.GameClient Q :=
  {| Client.my_id := Some 3; Client.connected := true;
     Client.state_buffer := [e_snapshot0; e_snapshot1];
     Client.current_input := None; Client.last_input_sent := None |}.

(** The monotonic clock of a Linux host: a resolution of [1e-09]. *)
Definition nanosecond : LoopClock float :=
  {| clock_resolution := decimal 1 1000000000 |}.
#[local] Existing Instance nanosecond.

(** A server started at time 0.  Two clients join, at (100, 100) and
    at (400, 300); the first sends the intent RIGHT, which its
    coroutine applies once the clock shows 1. *)
Definition go_right : json float :=
  JDict [("type", JStr "input"); ("direction", JStr "RIGHT")].

Definition joined : list (@Server.event float) :=
  [Server.Connect 1%nat 100 100 255 0 0; Server.Connect 2%nat 400 300 0 255 0].

Definition steered : list (@Server.event float) :=
  joined ++ [Server.Receive 1%nat (Some go_right); Server.Pass (of_Z 1);
             Server.Resume 0%nat].

Definition started : @Server.EventLoop float := boot (of_Z 0) (of_Z 0) (of_Z 0).

(** A client joins; its intent RIGHT arrives when the clock shows 1.0;
    the clock then shows 1.2. *)
Definition hurried : list (@Server.event float) :=
  [Server.Connect 1%nat 100 100 255 0 0; Server.Pass (of_Z 1);
   Server.Receive 1%nat (Some go_right); Server.Pass (decimal 12 10)].

Definition playing : @Server.EventLoop float := Server.run started steered.

(** Player 1 of [playing], and the message broadcast from [playing]. *)
Definition player1 : @Server.Player float :=
  {| Server.x := of_Z 100; Server.y := of_Z 100; Server.color := (255, 0, 0);
     Server.score := 0; Server.input := JStr "RIGHT" |}.

Definition message : json float :=
  Eval vm_compute in
    match Server.broadcast_state (Server.game playing) (of_Z 10) with
    | Some m => m
    | None => JNull
    end.

(** The same message as CPython writes it: no player has moved, so
    the coordinates are the [int]s that [random.randint] returned. *)
Definition wire_message : json float :=
  JDict [("t", JFloat (of_Z 10));
         ("players",
           JDict [("1", JDict [("x", JInt 100); ("y", JInt 100);
                               ("color", JList [JInt 255; JInt 0; JInt 0]);
                               ("score", JInt 0); ("input", JStr "RIGHT")]);
                  ("2", JDict [("x", JInt 400); ("y", JInt 300);
                               ("color", JList [JInt 0; JInt 255; JInt 0]);
                               ("score", JInt 0); ("input", JNull)])]);
         ("coins", JList []);
         ("status", JStr "PLAYING")].

(** A single client in the lobby. *)
Definition lobby : @Server.EventLoop float :=
  Server.run started [Server.Connect 1%nat 100 100 255 0 0].

(** The tick at time 10, a sixtieth of a second long, whose spawn
    draws are (110, 100). *)
Definition tick_now : float := of_Z 10.
Definition tick_dt : float := decimal 1 60.

(** A player at a given spot, and the coin of the spec's scenario 3. *)
Definition player_at (px py : Z) : @Server.Player float :=
  {| Server.x := of_Z px; Server.y := of_Z py; Server.color := (0, 0, 0);
     Server.score := 0; Server.input := JNull |}.

Definition coin_50_50 : Coin := {| coin_id := 0; coin_x := 50; coin_y := 50 |}.

(** The events of [playing] followed by the sample tick, and player 1
    as that tick leaves it. *)
Definition ticked : list (@Server.event float) :=
  steered ++ [Server.Tick tick_now tick_dt 110 100].

Definition player1_after : @Server.Player float :=
  Eval vm_compute in
    match dict_get Z.eqb (Server.players (Server.game (Server.run started ticked))) 1 with
    | Some p => p
    | None => player1
    end.

(** A receive loop that has read nothing yet. *)
Definition inbox : @Client.Inbox float :=
  {| Client.assigned_id := None; Client.received := []; Client.listening := true |}.

(** The handshake for identity 1. *)
Definition handshake : list (string * json float) :=
  [("type", JStr "init"); ("id", JInt 1)].
End Sample.

(** * Properties *)

(** ** Double precision *)

Lemma SFltb_SFleb (a b : float) : SFltb a b = true -> SFleb a b = true.
Proof.
  unfold SFltb, SFleb.
  destruct (SFcompare a b) as [[ | | ] | ]; auto; discriminate.
Qed.

Lemma SFcompare_refl (a : float) : is_finite a = true -> SFcompare a a = Some Eq.
Proof.
  destruct a as [s | s | | s m e]; simpl; try discriminate; intros _; auto.
  rewrite Z.compare_refl, Pos.compare_cont_refl.
  destruct s; reflexivity.
Qed.

Lemma SFeqb_refl (a : float) : is_finite a = true -> SFeqb a a = true.
Proof. intros Ha. unfold SFeqb. now rewrite SFcompare_refl. Qed.

Lemma SFleb_refl (a : float) : is_finite a = true -> SFleb a a = true.
Proof. intros Ha. unfold SFleb. now rewrite SFcompare_refl. Qed.

(** [max(lo, min(hi, v))] lies in [[lo, hi]] whenever [lo <= hi], for
    every [v], a NaN included. *)
Lemma clamp_bounds (lo hi v : float) :
  is_finite lo = true -> is_finite hi = true -> SFleb lo hi = true ->
  SFleb lo (py_max lo (py_min hi v)) = true /\
  SFleb (py_max lo (py_min hi v)) hi = true.
Proof.
  intros Hlo Hhi Hle. unfold py_max, py_min, gtb. cbn [ltb binary64].
  destruct (SFltb v hi) eqn:E1.
  - destruct (SFltb lo v) eqn:E2.
    + split; now apply SFltb_SFleb.
    + split; [now apply SFleb_refl | assumption].
  - destruct (SFltb lo hi) eqn:E2.
    + split; [assumption | now apply SFleb_refl].
    + split; [now apply SFleb_refl | assumption].
Qed.

(** [a + d * 0.0] is [a], up to the sign of a zero. *)
Lemma lerp_zero (a b : float) :
  is_finite a = true -> is_finite (b - a)%py = true ->
  (Client.linear_interpolate a b (of_Z 0) =? a)%py = true.
Proof.
  unfold Client.linear_interpolate. cbn [add sub mul eqb of_Z binary64].
  intros Ha Hd.
  change (binary_normalize prec emax 0 0 false) with (S754_zero false).
  destruct (SFsub prec emax b a) as [sd | sd | | sd md ed]; try discriminate;
    destruct a as [sa | sa | | sa ma ea]; try discriminate; cbn [SFmul SFadd].
  - destruct sa, sd; reflexivity.
  - now apply SFeqb_refl.
  - destruct sa, sd; reflexivity.
  - now apply SFeqb_refl.
Qed.

(** ** The client: trimming and the short buffer *)

Section ClientFacts.
Context {num : Type} `{PyNum num}.

Lemma get_render_state_buffer (now : num) (c : Client.GameClient) :
  Client.state_buffer (snd (Client.get_render_state now c)) =
  Client.trim (now - Client.INTERPOLATION_OFFSET)%py (Client.state_buffer c).
Proof.
  unfold Client.get_render_state.
  destruct (Client.trim _ _) as [ | s [ | s' l]]; reflexivity.
Qed.

Lemma trim_length (render_time : num) (buffer : list Client.Snapshot) :
  (2 <= List.length buffer)%nat ->
  (2 <= List.length (Client.trim render_time buffer))%nat.
Proof.
  induction buffer as [ | s0 rest IH]; intros Hlen; [simpl in Hlen; lia | ].
  destruct rest as [ | s1 [ | s2 tl]]; simpl in *; try lia.
  destruct (Client.recv_time s1 <? render_time)%py.
  - apply IH. lia.
  - simpl. lia.
Qed.

Lemma trim_two (render_time : num) (buffer : list Client.Snapshot) :
  (2 <= List.length buffer)%nat ->
  exists prev next rest, Client.trim render_time buffer = prev :: next :: rest.
Proof.
  intros Hlen. apply (trim_length render_time) in Hlen.
  destruct (Client.trim render_time buffer) as [ | prev [ | next rest]];
    cbn in Hlen; try lia.
  now exists prev, next, rest.
Qed.

Lemma trim_drops (render_time : num) (buffer : list Client.Snapshot) :
  exists k : nat,
    Client.trim render_time buffer = skipn k buffer /\
    (forall i : nat, (i < k)%nat ->
       (2 < List.length (skipn i buffer))%nat /\
       exists s1, nth_error buffer (S i) = Some s1 /\
                  (Client.recv_time s1 <? render_time)%py = true).
Proof.
  induction buffer as [ | s0 rest IH].
  - exists 0%nat. split; [reflexivity | intros i Hi; lia].
  - destruct IH as [k [Hk Hdrop]].
    destruct rest as [ | s1 [ | s2 tl]];
      try (exists 0%nat; split; [reflexivity | intros i Hi; lia]).
    cbn [Client.trim].
    destruct (Client.recv_time s1 <? render_time)%py eqn:E.
    + exists (S k). split; [exact Hk | ].
      intros [ | i] Hi.
      * split; [simpl; lia | ]. exists s1. split; [reflexivity | exact E].
      * apply Hdrop. lia.
    + exists 0%nat. split; [reflexivity | intros i Hi; lia].
Qed.

Lemma trim_stops (render_time : num) (buffer : list Client.Snapshot) :
  List.length (Client.trim render_time buffer) = 2%nat \/
  (List.length buffer < 2)%nat \/
  exists s1, nth_error (Client.trim render_time buffer) 1 = Some s1 /\
             (Client.recv_time s1 <? render_time)%py = false.
Proof.
  induction buffer as [ | s0 rest IH]; [right; left; simpl; lia | ].
  destruct rest as [ | s1 [ | s2 tl]]; [right; left; simpl; lia | now left | ].
  cbn [Client.trim].
  destruct (Client.recv_time s1 <? render_time)%py eqn:E.
  - destruct IH as [IH | [IH | IH]]; [now left | simpl in IH; lia | now right; right].
  - right; right. exists s1. split; [reflexivity | exact E].
Qed.

(** C7. On a buffer of at least two entries the trimming of
    [get_render_state] leaves a suffix of the buffer that still has at
    least two entries; an entry is dropped from the front only while
    more than two entries remain and the entry after it, the second one,
    was received before the render time, so the dropped entry is not one
    of a pair around the render time; and the loop stops only at two
    entries or at a second entry that is not older than the render
    time. *)
Theorem trim_keeps_bracketing_pair (now : num) (c : Client.GameClient) :
  (2 <= List.length (Client.state_buffer c))%nat ->
  let render_time := (now - Client.INTERPOLATION_OFFSET)%py in
  let buffer := Client.state_buffer c in
  let trimmed := Client.state_buffer (snd (Client.get_render_state now c)) in
  trimmed = Client.trim render_time buffer /\
  (2 <= List.length trimmed)%nat /\
  (exists k : nat,
     trimmed = skipn k buffer /\
     forall i : nat, (i < k)%nat ->
       (2 < List.length (skipn i buffer))%nat /\
       exists s1, nth_error buffer (S i) = Some s1 /\
                  (Client.recv_time s1 <? render_time)%py = true) /\
  (List.length trimmed = 2%nat \/
   exists s1, nth_error trimmed 1 = Some s1 /\
              (Client.recv_time s1 <? render_time)%py = false).
Proof.
  intros Hlen render_time buffer trimmed.
  assert (Ht : trimmed = Client.trim render_time buffer)
    by apply get_render_state_buffer.
  split; [exact Ht | ]. rewrite Ht.
  split; [now apply trim_length | ].
  split; [apply trim_drops | ].
  destruct (trim_stops render_time buffer) as [Hs | [Hs | Hs]];
    [now left | unfold buffer in Hs; lia | now right].
Qed.

(** C8. With an empty buffer [get_render_state] returns no players, no
    coins and the status CONNECTING; with a single entry it returns that
    entry's players, coins and status as they are.  Neither case touches
    the buffer or computes anything. *)
Theorem short_buffer_is_returned_verbatim
    (now : num) (c : Client.GameClient) (s : Client.Snapshot) :
  Client.get_render_state now (Client.set_state_buffer c []) =
    (([], [], "CONNECTING"), Client.set_state_buffer c []) /\
  Client.get_render_state now (Client.set_state_buffer c [s]) =
    ((Client.players s, Client.coins s, Client.status s),
     Client.set_state_buffer c [s]).
Proof. split; reflexivity. Qed.
End ClientFacts.

(** ** The client: interpolation *)

Section Interpolation.
Context {num : Type} `{PyNum num}.

(** What [get_render_state] returns when two entries are left. *)
Lemma get_render_state_two (now : num) (c : Client.GameClient)
    (prev next : Client.Snapshot) (rest : list Client.Snapshot) :
  let render_time := (now - Client.INTERPOLATION_OFFSET)%py in
  Client.trim render_time (Client.state_buffer c) = prev :: next :: rest ->
  fst (Client.get_render_state now c) =
    (map (fun '(pid, p_next) =>
            (pid, Client.interpolate_player (Client.players prev)
                    (Client.compute_alpha render_time prev next) pid p_next))
         (Client.players next),
     Client.coins next, Client.status next).
Proof.
  intros render_time Htrim. unfold Client.get_render_state.
  fold render_time. rewrite Htrim. reflexivity.
Qed.

Lemma rendered_entry (prev_players next_players : dict string Client.Player)
    (alpha : num) (pid : string) (p : Client.Player) :
  In (pid, p)
     (map (fun '(pid, p_next) =>
             (pid, Client.interpolate_player prev_players alpha pid p_next))
          next_players) ->
  exists p_next, In (pid, p_next) next_players /\
                 p = Client.interpolate_player prev_players alpha pid p_next.
Proof.
  intros Hin. apply in_map_iff in Hin. destruct Hin as [[pid' p_next] [Heq Hin]].
  inversion Heq; subst. now exists p_next.
Qed.
End Interpolation.

Section InterpolationDouble.
Import Client.

(** C2, as the client computes it.  When the buffer has at least two
    entries, two entries [prev], [next] head it after trimming; the
    weight is
    [(render_time - prev.recv_time) / (next.recv_time - prev.recv_time)],
    or 1 when the denominator is not positive, clamped into [[0, 1]];
    every player of [next] that [prev] has too is rendered at
    [prev + (next - prev) * alpha] on each axis, in double precision,
    with the color and the score of [next]; and at [alpha = 0] the
    rendered coordinate equals that of [prev] (finite coordinates whose
    difference does not overflow).  At [alpha = 1] the formula is all
    that is stated. *)
Theorem interpolation_formula (now : float) (c : @GameClient float) :
  (2 <= List.length (state_buffer c))%nat ->
  exists prev next rest,
    state_buffer (snd (get_render_state now c)) = prev :: next :: rest /\
    let render_time := (now - INTERPOLATION_OFFSET)%py in
    let time_diff := (recv_time next - recv_time prev)%py in
    let alpha :=
      py_max (of_Z 0)
        (py_min (of_Z 1)
           (if (time_diff <=? of_Z 0)%py then of_Z 1
            else ((render_time - recv_time prev) / time_diff)%py)) in
    let rendered := fst (fst (fst (get_render_state now c))) in
    ((of_Z 0 <=? alpha)%py = true /\ (alpha <=? of_Z 1)%py = true) /\
    (forall pid p_next p_prev,
        In (pid, p_next) (players next) ->
        dict_get String.eqb (players prev) pid = Some p_prev ->
        In (pid,
            {| x := (x p_prev + (x p_next - x p_prev) * alpha)%py;
               y := (y p_prev + (y p_next - y p_prev) * alpha)%py;
               color := color p_next; score := score p_next;
               input := None |}) rendered) /\
    (forall pid p p_prev,
        In (pid, p) rendered ->
        dict_get String.eqb (players prev) pid = Some p_prev ->
        exists p_next,
          In (pid, p_next) (players next) /\
          x p = (x p_prev + (x p_next - x p_prev) * alpha)%py /\
          y p = (y p_prev + (y p_next - y p_prev) * alpha)%py /\
          color p = color p_next /\ score p = score p_next /\
          (alpha = of_Z 0 -> is_finite (x p_prev) = true ->
           is_finite (x p_next - x p_prev)%py = true ->
           (x p =? x p_prev)%py = true) /\
          (alpha = of_Z 0 -> is_finite (y p_prev) = true ->
           is_finite (y p_next - y p_prev)%py = true ->
           (y p =? y p_prev)%py = true)).
Proof.
  intros Hlen.
  destruct (trim_two (now - INTERPOLATION_OFFSET)%py (state_buffer c) Hlen)
    as [prev [next [rest Htrim]]].
  exists prev, next, rest.
  split; [now rewrite get_render_state_buffer | ].
  intros render_time time_diff alpha rendered.
  assert (Hr : rendered =
            map (fun '(pid, p_next) =>
                   (pid, interpolate_player (players prev) alpha pid p_next))
                (players next)).
  { unfold rendered. now rewrite (get_render_state_two now c Htrim). }
  split; [ | split].
  - apply clamp_bounds; reflexivity.
  - intros pid p_next p_prev Hin Hget. rewrite Hr.
    apply in_map_iff. exists (pid, p_next). split; [ | exact Hin].
    unfold interpolate_player. now rewrite Hget.
  - intros pid p p_prev Hin Hget. rewrite Hr in Hin.
    apply rendered_entry in Hin. destruct Hin as [p_next [Hin Hp]].
    exists p_next. unfold interpolate_player in Hp. rewrite Hget in Hp.
    subst p. cbn [x y color score]. unfold linear_interpolate.
    repeat split; auto.
    + intros Ha Hf Hd. rewrite Ha. now apply lerp_zero.
    + intros Ha Hf Hd. rewrite Ha. now apply lerp_zero.
Qed.

Lemma interpolation_formula_witness :
  exists prev next rest,
    state_buffer (snd (get_render_state Sample.now Sample.client)) =
    prev :: next :: rest.
Proof.
  assert (Hlen : (2 <= List.length (state_buffer Sample.client))%nat)
    by (vm_compute; lia).
  destruct (interpolation_formula Sample.now Sample.client Hlen)
    as [prev [next [rest [Hbuf _]]]].
  exists prev, next, rest. exact Hbuf.
Defined.

(** C2 fails at [alpha = 1]: player 3 goes from x = 20.2 to x = 52.4,
    the render time is past both receipt times, and the rendered x is
    52.400000000000006, not the 52.4 of [next]. *)
Lemma endpoint_one_misses_next :
  compute_alpha (Sample.now - INTERPOLATION_OFFSET)%py
    Sample.snapshot0 Sample.snapshot1 = of_Z 1 /\
  exists p,
    fst (fst (fst (get_render_state Sample.now Sample.client))) = [("3", p)] /\
    x Sample.p_next = S754_finite false 7374644389819187 (-47) /\
    x p = S754_finite false 7374644389819188 (-47) /\
    (x p =? x Sample.p_next)%py = false.
Proof.
  split; [vm_compute; reflexivity | ].
  eexists. split; [vm_compute; reflexivity | ].
  repeat split; vm_compute; reflexivity.
Qed.
End InterpolationDouble.

Section InterpolationExact.
Import Client.

Lemma exact_clamp (a : Q) :
  (0 <= py_max (of_Z 0) (py_min (of_Z 1) a) /\
   py_max (of_Z 0) (py_min (of_Z 1) a) <= 1)%Q.
Proof.
  unfold py_max, py_min, gtb. cbn [ltb of_Z exact].
  change (inject_Z 0) with 0%Q. change (inject_Z 1) with 1%Q.
  destruct (Qle_bool 1 a) eqn:E1; cbn [negb].
  - destruct (Qle_bool 1 0) eqn:E2; cbn [negb]; split; lra.
  - assert (Ha : ~ (1 <= a)%Q)
      by (intros Hle; apply Qle_bool_iff in Hle; congruence).
    destruct (Qle_bool a 0) eqn:E2; cbn [negb]; [split; lra | ].
    assert (Ha0 : ~ (a <= 0)%Q)
      by (intros Hle; apply Qle_bool_iff in Hle; congruence).
    split; lra.
Qed.

Lemma exact_lerp_between (a b alpha : Q) :
  (0 <= alpha)%Q -> (alpha <= 1)%Q ->
  between a (linear_interpolate a b alpha) b.
Proof.
  intros H0 H1. unfold between, linear_interpolate. cbn [add sub mul exact].
  destruct (Qlt_le_dec b a) as [Hlt | Hle]; [right | left]; split; nra.
Qed.
End InterpolationExact.

Section InterpolationBounds.
Import Client.

(** C10, as far as it holds.  In double precision the weight computed
    from two buffered entries always lies in [[0, 1]].  Evaluated
    without rounding, on a buffer of at least two entries, the
    coordinates [get_render_state] returns for a player that both
    entries at the head of the trimmed buffer have lie between that
    player's coordinates in the two entries.  The rounded coordinates
    are not covered. *)
Theorem interpolation_stays_between
    (render_time : float) (prev next : @Snapshot float)
    (now : Q) (c : @GameClient Q) :
  (2 <= List.length (state_buffer c))%nat ->
  ((of_Z 0 <=? compute_alpha render_time prev next)%py = true /\
   (compute_alpha render_time prev next <=? of_Z 1)%py = true) /\
  exists eprev enext rest,
    state_buffer (snd (get_render_state now c)) = eprev :: enext :: rest /\
    forall pid p p_prev,
      In (pid, p) (fst (fst (fst (get_render_state now c)))) ->
      dict_get String.eqb (players eprev) pid = Some p_prev ->
      exists p_next,
        In (pid, p_next) (players enext) /\
        between (x p_prev) (x p) (x p_next) /\
        between (y p_prev) (y p) (y p_next).
Proof.
  intros Hlen. split.
  - unfold compute_alpha. apply clamp_bounds; reflexivity.
  - destruct (trim_two (now - INTERPOLATION_OFFSET)%py (state_buffer c) Hlen)
      as [eprev [enext [rest Htrim]]].
    exists eprev, enext, rest.
    split; [now rewrite get_render_state_buffer | ].
    intros pid p p_prev Hin Hget.
    rewrite (get_render_state_two now c Htrim) in Hin. cbn [fst] in Hin.
    apply rendered_entry in Hin. destruct Hin as [p_next [Hin Hp]].
    exists p_next. split; [exact Hin | ].
    unfold interpolate_player in Hp. rewrite Hget in Hp. subst p.
    cbn [x y]. unfold compute_alpha.
    split; apply exact_lerp_between; apply exact_clamp.
Qed.
End InterpolationBounds.

(** ** Dictionaries *)

Section DictFacts.
Variable V : Type.
Implicit Types (d : dict Z V) (k : Z) (v : V).

Lemma dict_get_app_fresh d d' k :
  ~ In k (keys d) -> dict_get Z.eqb (d ++ d') k = dict_get Z.eqb d' k.
Proof.
  induction d as [ | [k' v'] d IH]; intros Hk; [reflexivity | ].
  simpl in *. destruct (Z.eqb_spec k k') as [-> | Hne]; [tauto | ].
  apply IH. tauto.
Qed.

Lemma dict_set_app_fresh d d' k v :
  ~ In k (keys d) -> dict_set Z.eqb (d ++ d') k v = d ++ dict_set Z.eqb d' k v.
Proof.
  induction d as [ | [k' v'] d IH]; intros Hk; [reflexivity | ].
  simpl in *. destruct (Z.eqb_spec k k') as [-> | Hne]; [tauto | ].
  f_equal. apply IH. tauto.
Qed.

Lemma dict_get_In d k v : dict_get Z.eqb d k = Some v -> In (k, v) d.
Proof.
  induction d as [ | [k' v'] d IH]; simpl; [discriminate | ].
  destruct (Z.eqb_spec k k') as [-> | Hne].
  - intros [= ->]. now left.
  - intros Hget. right. now apply IH.
Qed.

Lemma In_dict_get d k v :
  NoDup (keys d) -> In (k, v) d -> dict_get Z.eqb d k = Some v.
Proof.
  induction d as [ | [k' v'] d IH]; simpl; intros Hnd Hin; [tauto | ].
  inversion Hnd as [ | ? ? Hnotin Hnd']; subst.
  destruct Hin as [[= -> ->] | Hin].
  - now rewrite Z.eqb_refl.
  - destruct (Z.eqb_spec k k') as [-> | Hne]; [ | now apply IH].
    exfalso. apply Hnotin. apply in_map_iff. now exists (k', v).
Qed.

Lemma keys_dict_set_present d k v v' :
  dict_get Z.eqb d k = Some v' -> keys (dict_set Z.eqb d k v) = keys d.
Proof.
  induction d as [ | [k0 v0] d IH]; simpl; [discriminate | ].
  destruct (Z.eqb_spec k k0) as [-> | Hne]; [reflexivity | ].
  intros Hget. simpl. f_equal. now apply IH.
Qed.

Lemma keys_dict_set_absent d k v :
  dict_get Z.eqb d k = None -> keys (dict_set Z.eqb d k v) = keys d ++ [k].
Proof.
  induction d as [ | [k0 v0] d IH]; simpl; [reflexivity | ].
  destruct (Z.eqb_spec k k0) as [-> | Hne]; [discriminate | ].
  intros Hget. simpl. f_equal. now apply IH.
Qed.

Lemma dict_get_None_keys d k : ~ In k (keys d) -> dict_get Z.eqb d k = None.
Proof.
  induction d as [ | [k0 v0] d IH]; simpl; [reflexivity | ].
  intros Hk. destruct (Z.eqb_spec k k0) as [-> | Hne]; [tauto | ].
  apply IH. tauto.
Qed.

Lemma keys_dict_pop_incl d k : incl (keys (dict_pop Z.eqb d k)) (keys d).
Proof.
  induction d as [ | [k0 v0] d IH]; simpl; [apply incl_refl | ].
  destruct (Z.eqb k k0).
  - apply incl_tl, incl_refl.
  - simpl. intros a [-> | Ha]; [now left | right; now apply IH].
Qed.

Lemma NoDup_keys_dict_pop d k : NoDup (keys d) -> NoDup (keys (dict_pop Z.eqb d k)).
Proof.
  induction d as [ | [k0 v0] d IH]; simpl; intros Hnd; [constructor | ].
  inversion Hnd as [ | ? ? Hnotin Hnd']; subst.
  destruct (Z.eqb k k0); [assumption | ].
  simpl. constructor; [ | now apply IH].
  intros Hin. apply Hnotin. now apply (keys_dict_pop_incl d k).
Qed.
End DictFacts.

(** ** The server: one tick *)

Section TickFacts.
Context {num : Type} `{PyNum num} `{PyMath num} `{LoopClock num}.
Import Server.
Local Abbreviation Player := (@Player num).
Local Abbreviation GameServer := (@GameServer num).

Lemma set_score_score (p : Player) : set_score p (score p) = p.
Proof. now destruct p. Qed.

Lemma coin_loop (coins : list Coin) :
  forall (p : Player) (acc : list Coin),
    fold_left coin_step coins (p, acc) =
    (set_score p (score p + Z.of_nat (List.length (filter (touches p) coins))),
     acc ++ filter (fun c => negb (touches p c)) coins).
Proof.
  induction coins as [ | c coins IH]; intros p acc; cbn [fold_left filter].
  - cbn [List.length]. rewrite Z.add_0_r, set_score_score, app_nil_r. reflexivity.
  - unfold coin_step at 2. destruct (touches p c) eqn:E; cbn [negb].
    + rewrite IH. cbn [score set_score x y color input].
      change (touches (set_score p (score p + 1))) with (touches p).
      unfold set_score. cbn [x y color score input List.length].
      do 2 f_equal. lia.
    + rewrite IH, <- app_assoc. reflexivity.
Qed.

Lemma check_collisions_found (self : GameServer) (pid : Z) (p : Player) :
  dict_get Z.eqb (players self) pid = Some p ->
  check_collisions self pid =
  Some (set_coins
          (set_players self
             (dict_set Z.eqb (players self) pid
                (set_score (clamp_walls p)
                   (score (clamp_walls p) +
                    Z.of_nat (List.length
                                (filter (touches (clamp_walls p)) (coins self)))))))
          (filter (fun c => negb (touches (clamp_walls p) c)) (coins self))).
Proof.
  intros Hget. unfold check_collisions. rewrite Hget, coin_loop. reflexivity.
Qed.

Lemma dict_get_middle (pre rest : dict Z Player) (pid : Z) (p : Player) :
  ~ In pid (keys pre) ->
  dict_get Z.eqb (pre ++ (pid, p) :: rest) pid = Some p.
Proof.
  intros Hk. rewrite dict_get_app_fresh by exact Hk.
  simpl. now rewrite Z.eqb_refl.
Qed.

Lemma dict_set_middle (pre rest : dict Z Player) (pid : Z) (p q : Player) :
  ~ In pid (keys pre) ->
  dict_set Z.eqb (pre ++ (pid, p) :: rest) pid q = pre ++ (pid, q) :: rest.
Proof.
  intros Hk. rewrite dict_set_app_fresh by exact Hk.
  simpl. now rewrite Z.eqb_refl.
Qed.

Lemma update_loop (dt : num) (todo : dict Z Player) :
  forall (pre : dict Z Player) (self : GameServer),
    players self = pre ++ todo ->
    NoDup (keys (pre ++ todo)) ->
    fold_left (update_player dt) (keys todo) (Some self) =
    Some (set_coins
            (set_players self (pre ++ fst (sweep dt todo (coins self))))
            (snd (sweep dt todo (coins self)))).
Proof.
  induction todo as [ | [pid p] rest IH]; intros pre self Hps Hnd.
  - cbn. rewrite app_nil_r in *. destruct self; cbn in *. now subst.
  - assert (Hfresh : ~ In pid (keys pre)).
    { unfold keys in *. rewrite map_app in Hnd. cbn in Hnd.
      apply NoDup_remove_2 in Hnd. intros Hin. apply Hnd.
      apply in_or_app. now left. }
    cbn [keys map fst fold_left]. fold (keys rest).
    unfold update_player at 2. rewrite Hps.
    rewrite dict_get_middle by exact Hfresh.
    rewrite dict_set_middle by exact Hfresh.
    rewrite (@check_collisions_found _ pid (move p dt))
      by (cbn; now apply dict_get_middle).
    cbn [players coins set_players set_coins].
    rewrite dict_set_middle by exact Hfresh.
    rewrite (IH (pre ++ [(pid, settle dt p (coins self))])).
    + cbn [sweep coins set_coins set_players].
      fold (placed dt p). fold (leftover dt p (coins self)).
      destruct (sweep dt rest (leftover dt p (coins self))) as [rest' coins'].
      cbn [fst snd]. rewrite <- app_assoc. reflexivity.
    + cbn. now rewrite <- app_assoc.
    + rewrite <- app_assoc. cbn.
      unfold keys in *. rewrite map_app in *. exact Hnd.
Qed.
End TickFacts.

Section SweepFacts.
Context {num : Type} `{PyNum num} `{PyMath num} `{LoopClock num}.
Import Server.
Local Abbreviation Player := (@Player num).
Local Abbreviation GameServer := (@GameServer num).

Lemma filter_filter_and (A : Type) (f g : A -> bool) (l : list A) :
  filter f (filter g l) = filter (fun a => g a && f a) l.
Proof.
  induction l as [ | a l IH]; [reflexivity | ].
  cbn [filter]. destruct (g a); cbn [andb filter]; rewrite IH; reflexivity.
Qed.

Lemma players_spawned (self : GameServer) (now : num) (rx ry : Z) :
  players (spawned self now rx ry) = players self.
Proof. unfold spawned. now destruct (gtb _ _). Qed.

Lemma coins_spawned (self : GameServer) (now : num) (rx ry : Z) :
  coins (spawned self now rx ry) = coins self \/
  coins (spawned self now rx ry) =
    coins self ++ [{| coin_id := coin_counter self; coin_x := rx; coin_y := ry |}].
Proof. unfold spawned. destruct (gtb _ _); [now right | now left]. Qed.

(** [update] with two players or more, as one pass of [sweep]. *)
Lemma update_playing (self : GameServer) (now dt : num) (rx ry : Z) :
  (2 <= List.length (players self))%nat ->
  NoDup (keys (players self)) ->
  update self now dt rx ry =
  Some (set_coins
          (set_players (spawned self now rx ry)
             (fst (sweep dt (players self) (coins (spawned self now rx ry)))))
          (snd (sweep dt (players self) (coins (spawned self now rx ry))))).
Proof.
  intros Hlen Hnd. unfold update.
  destruct (Z.ltb_spec (Z.of_nat (List.length (players self))) 2) as [Hlt | _];
    [lia | ].
  fold (spawned self now rx ry). rewrite players_spawned.
  rewrite (@update_loop _ _ _ dt (players self) [] (spawned self now rx ry));
    [reflexivity | apply players_spawned | exact Hnd].
Qed.

Lemma update_lobby (self : GameServer) (now dt : num) (rx ry : Z) :
  (List.length (players self) < 2)%nat ->
  update self now dt rx ry = Some self.
Proof.
  intros Hlen. unfold update.
  destruct (Z.ltb_spec (Z.of_nat (List.length (players self))) 2) as [_ | Hge];
    [reflexivity | lia].
Qed.

Lemma sweep_keys (dt : num) (ps : dict Z Player) :
  forall coins, keys (fst (sweep dt ps coins)) = keys ps.
Proof.
  induction ps as [ | [pid p] rest IH]; intros coins; [reflexivity | ].
  cbn [sweep]. specialize (IH (leftover dt p coins)).
  destruct (sweep dt rest (leftover dt p coins)). cbn in *. now f_equal.
Qed.

Lemma sweep_coins (dt : num) (ps : dict Z Player) :
  forall coins,
    snd (sweep dt ps coins) = filter (fun c => negb (touched dt ps c)) coins.
Proof.
  induction ps as [ | [pid p] rest IH]; intros coins.
  - cbn. induction coins as [ | c coins IHc]; [reflexivity | ].
    cbn. now f_equal.
  - cbn [sweep]. specialize (IH (leftover dt p coins)).
    destruct (sweep dt rest (leftover dt p coins)). cbn [snd] in *.
    rewrite IH. unfold leftover. rewrite filter_filter_and.
    apply filter_ext. intros c. unfold touched. cbn [existsb snd].
    now rewrite negb_orb.
Qed.

Lemma sweep_nth (dt : num) (ps : dict Z Player) :
  forall (coins : list Coin) (i : nat) (pid : Z) (p : Player),
    nth_error ps i = Some (pid, p) ->
    nth_error (fst (sweep dt ps coins)) i =
    Some (pid, settle dt p
                 (filter (fun c => negb (touched dt (firstn i ps) c)) coins)).
Proof.
  induction ps as [ | [pid0 p0] rest IH]; intros coins i pid p Hnth.
  - destruct i; discriminate.
  - cbn [sweep]. specialize (IH (leftover dt p0 coins)).
    destruct (sweep dt rest (leftover dt p0 coins)) as [rest' coins'].
    cbn [fst] in *. destruct i as [ | i].
    + cbn in Hnth. injection Hnth as -> ->. cbn [nth_error firstn].
      do 3 f_equal. clear. induction coins as [ | c coins IHc]; [reflexivity | ].
      cbn. now f_equal.
    + cbn [nth_error] in *. rewrite (IH i pid p Hnth).
      do 3 f_equal. unfold leftover. rewrite filter_filter_and.
      apply filter_ext. intros c. unfold touched. cbn [firstn existsb snd].
      now rewrite negb_orb.
Qed.

Lemma filter_length_split (A : Type) (f : A -> bool) (l : list A) :
  (List.length (filter f l) + List.length (filter (fun a => negb (f a)) l) =
   List.length l)%nat.
Proof.
  induction l as [ | a l IH]; [reflexivity | ].
  cbn [filter]. destruct (f a); cbn [negb List.length]; lia.
Qed.

Lemma sweep_total (dt : num) (ps : dict Z Player) :
  forall coins,
    total_score (fst (sweep dt ps coins)) + Z.of_nat (List.length (snd (sweep dt ps coins))) =
    total_score ps + Z.of_nat (List.length coins).
Proof.
  induction ps as [ | [pid p] rest IH]; intros coins; [reflexivity | ].
  cbn [sweep]. specialize (IH (leftover dt p coins)).
  destruct (sweep dt rest (leftover dt p coins)) as [rest' coins'].
  cbn [fst snd total_score fold_right] in *.
  fold (total_score rest') in *. fold (total_score rest) in *.
  unfold settle at 1. cbn [score set_score].
  assert (Hp : score (placed dt p) = score p).
  { unfold placed, clamp_walls, move.
    repeat match goal with |- context [if ?b then _ else _] => destruct b end;
      reflexivity. }
  pose proof (filter_length_split (touches (placed dt p)) coins) as Hsplit.
  unfold leftover in IH. rewrite Hp. lia.
Qed.

(** Every player comes out of the tick placed, whatever it collected. *)
Lemma update_places (self g' : GameServer) (now dt : num) (rx ry : Z)
    (pid : Z) (p : Player) :
  (2 <= List.length (players self))%nat ->
  NoDup (keys (players self)) ->
  update self now dt rx ry = Some g' ->
  dict_get Z.eqb (players self) pid = Some p ->
  exists p', dict_get Z.eqb (players g') pid = Some p' /\
             x p' = x (placed dt p) /\ y p' = y (placed dt p) /\
             color p' = color p /\ input p' = input p.
Proof.
  intros Hlen Hnd Hup Hget.
  rewrite update_playing in Hup by assumption. injection Hup as <-.
  cbn [players set_players set_coins].
  apply dict_get_In, In_nth_error in Hget. destruct Hget as [i Hi].
  pose proof (sweep_nth dt (players self) (coins (spawned self now rx ry)) i Hi)
    as Hnth.
  eexists. split.
  - apply In_dict_get; [now rewrite sweep_keys | ].
    eapply nth_error_In. exact Hnth.
  - unfold settle. cbn [x y color input set_score].
    unfold placed, clamp_walls, move.
    repeat split;
      repeat match goal with |- context [if ?b then _ else _] => destruct b end;
      reflexivity.
Qed.
End SweepFacts.

(** ** The server: what every reachable state satisfies *)

Section Reachable.
Context {num : Type} `{PyNum num} `{PyMath num} `{LoopClock num}.
Import Server.
Local Abbreviation Player := (@Player num).
Local Abbreviation GameServer := (@GameServer num).
Local Abbreviation EventLoop := (@EventLoop num).

Lemma NoDup_map_filter (A B : Type) (f : A -> B) (g : A -> bool) (l : list A) :
  NoDup (map f l) -> NoDup (map f (filter g l)).
Proof.
  induction l as [ | a l IH]; intros Hnd; [constructor | ].
  cbn in *. inversion Hnd as [ | ? ? Hnotin Hnd']; subst.
  destruct (g a); [ | now apply IH].
  cbn. constructor; [ | now apply IH].
  intros Hin. apply Hnotin. apply in_map_iff in Hin.
  destruct Hin as [a' [Heq Hin]]. apply filter_In in Hin.
  apply in_map_iff. exists a'. tauto.
Qed.

Lemma wf_init (now1 now2 : num) : wf (init now1 now2).
Proof.
  unfold wf, init. cbn. repeat split; try constructor; intros ? [].
Qed.

Lemma wf_register (g : GameServer) (ws : websocket) (rx ry cr cg cb : Z) :
  wf g -> wf (fst (register g ws rx ry cr cg cb)).
Proof.
  intros (Hnd & Hlt & Hcn & Hcl). unfold wf, register.
  cbn [players coins next_player_id coin_counter clients set_players set_clients set_coins set_coin_counter set_last_coin_spawn set_next_player_id spawn_coin fst].
  assert (Hfresh : ~ In (next_player_id g) (keys (players g))).
  { intros Hin. apply Hlt in Hin. lia. }
  rewrite keys_dict_set_absent by now apply dict_get_None_keys.
  repeat split; auto.
  - apply NoDup_app; [exact Hnd | repeat constructor; intros [] | ].
    intros a Ha [<- | []]. now apply Hfresh.
  - intros k Hk. apply in_app_or in Hk. destruct Hk as [Hk | [<- | []]].
    + apply Hlt in Hk. lia.
    + lia.
Qed.

Lemma wf_unregister (g : GameServer) (ws : websocket) :
  wf g -> wf (unregister g ws).
Proof.
  intros (Hnd & Hlt & Hcn & Hcl). unfold unregister.
  destruct (dict_get Nat.eqb (clients g) ws) as [pid | ]; [ | now repeat split].
  destruct (pid =? 0); [now repeat split | ].
  unfold wf. cbn [players coins next_player_id coin_counter clients set_players set_clients set_coins set_coin_counter set_last_coin_spawn set_next_player_id spawn_coin fst].
  repeat split; auto.
  - now apply NoDup_keys_dict_pop.
  - intros k Hk. apply Hlt. now apply (keys_dict_pop_incl (players g) pid).
Qed.

Lemma wf_apply_message (g : GameServer) (ws : websocket)
    (message : option (json num)) :
  wf g -> wf (apply_message g ws message).
Proof.
  intros Hwf. unfold apply_message.
  destruct message as [data | ]; [ | exact Hwf].
  destruct (dict_get Nat.eqb (clients g) ws) as [pid | ]; [ | exact Hwf].
  destruct (pid =? 0); [exact Hwf | ].
  destruct (get_item data "type") as [ty | ]; [ | exact Hwf].
  destruct (is_str ty "input"); [ | exact Hwf].
  destruct (get_item data "direction") as [direction | ]; [ | exact Hwf].
  destruct (dict_get Z.eqb (players g) pid) as [p | ] eqn:Hget; [ | exact Hwf].
  destruct Hwf as (Hnd & Hlt & Hcn & Hcl). unfold wf.
  cbn [players coins next_player_id coin_counter clients set_players set_clients set_coins set_coin_counter set_last_coin_spawn set_next_player_id spawn_coin fst].
  rewrite (keys_dict_set_present _ _ _ Hget). now repeat split.
Qed.

Lemma wf_spawned (g : GameServer) (now : num) (rx ry : Z) :
  wf g -> wf (spawned g now rx ry).
Proof.
  intros (Hnd & Hlt & Hcn & Hcl). unfold spawned.
  destruct (gtb _ _); [ | now repeat split].
  unfold wf. cbn [players coins next_player_id coin_counter clients set_players set_clients set_coins set_coin_counter set_last_coin_spawn set_next_player_id spawn_coin fst].
  repeat split; auto.
  - rewrite map_app. cbn. apply NoDup_app; [exact Hcn | repeat constructor; intros [] | ].
    intros a Ha [<- | []]. apply in_map_iff in Ha.
    destruct Ha as [c [Heq Hc]]. apply Hcl in Hc. lia.
  - intros c Hc. apply in_app_or in Hc. destruct Hc as [Hc | [<- | []]].
    + apply Hcl in Hc. lia.
    + cbn. lia.
Qed.

Lemma wf_update (g g' : GameServer) (now dt : num) (rx ry : Z) :
  wf g -> update g now dt rx ry = Some g' -> wf g'.
Proof.
  intros Hwf Hup.
  destruct (Nat.lt_ge_cases (List.length (players g)) 2) as [Hlt | Hge].
  - rewrite update_lobby in Hup by exact Hlt. now injection Hup as <-.
  - rewrite update_playing in Hup by (try exact Hge; apply Hwf).
    injection Hup as <-.
    destruct (wf_spawned now rx ry Hwf) as (Hnd & Hlt & Hcn & Hcl).
    rewrite players_spawned in Hnd, Hlt.
    unfold wf. cbn [players coins next_player_id coin_counter set_players set_coins].
    rewrite sweep_keys, sweep_coins. repeat split; auto.
    + now apply NoDup_map_filter.
    + intros c Hc. apply filter_In in Hc. now apply Hcl.
Qed.

Lemma wf_step (l : EventLoop) (e : event) : wf (game l) -> wf (game (step l e)).
Proof.
  intros Hwf. destruct e as [ws rx ry cr cg cb | ws m | i | ws | now dt rx ry | time];
    cbn [step].
  - now apply wf_register.
  - exact Hwf.
  - unfold resume. destruct (nth_error (sleeping l) i) as [s | ]; [ | exact Hwf].
    destruct (clock l + clock_resolution <=? wake s)%py; [exact Hwf | ].
    now apply wf_apply_message.
  - now apply wf_unregister.
  - destruct (update (game l) now dt rx ry) as [g | ] eqn:Hup; [ | exact Hwf].
    cbn. eapply wf_update; eassumption.
  - destruct (clock l <=? time)%py; exact Hwf.
Qed.

Lemma wf_run (events : list event) :
  forall l : EventLoop, wf (game l) -> wf (game (run l events)).
Proof.
  induction events as [ | e events IH]; intros l Hwf; [exact Hwf | ].
  cbn. apply IH. now apply wf_step.
Qed.

Lemma wf_reachable (now1 now2 clock0 : num) (events : list event) :
  wf (game (run (boot now1 now2 clock0) events)).
Proof. apply wf_run. apply wf_init. Qed.
End Reachable.

Section Retired.
Context {num : Type} `{PyNum num} `{PyMath num} `{LoopClock num}.
Import Server.
Local Abbreviation Player := (@Player num).
Local Abbreviation GameServer := (@GameServer num).
Local Abbreviation EventLoop := (@EventLoop num).

Lemma coins_apply_message (g : GameServer) (ws : websocket)
    (message : option (json num)) :
  coins (apply_message g ws message) = coins g /\
  coin_counter (apply_message g ws message) = coin_counter g.
Proof.
  unfold apply_message.
  repeat match goal with
         | |- context [match ?t with _ => _ end] => destruct t
         end; split; reflexivity.
Qed.

Lemma coins_unregister (g : GameServer) (ws : websocket) :
  coins (unregister g ws) = coins g /\
  coin_counter (unregister g ws) = coin_counter g.
Proof.
  unfold unregister.
  repeat match goal with
         | |- context [match ?t with _ => _ end] => destruct t
         end; split; reflexivity.
Qed.

Lemma coins_update (g g' : GameServer) (now dt : num) (rx ry : Z) :
  wf g -> update g now dt rx ry = Some g' ->
  coin_counter g <= coin_counter g' /\
  forall c, In c (coins g') -> In c (coins g) \/ coin_id c = coin_counter g.
Proof.
  intros Hwf Hup.
  destruct (Nat.lt_ge_cases (List.length (players g)) 2) as [Hlt | Hge].
  - rewrite update_lobby in Hup by exact Hlt. injection Hup as <-.
    split; [lia | now left].
  - rewrite update_playing in Hup by (try exact Hge; apply Hwf).
    injection Hup as <-. cbn [coins coin_counter set_players set_coins].
    rewrite sweep_coins. unfold spawned.
    destruct (gtb _ _); cbn [coins coin_counter set_coins set_coin_counter
                             set_last_coin_spawn spawn_coin].
    + split; [lia | ]. intros c Hc. apply filter_In in Hc. destruct Hc as [Hc _].
      apply in_app_or in Hc. destruct Hc as [Hc | [<- | []]]; [now left | now right].
    + split; [lia | ]. intros c Hc. apply filter_In in Hc. now left.
Qed.

Lemma retired_step (l : EventLoop) (e : event) (id : Z) :
  wf (game l) -> retired id (game l) -> retired id (game (step l e)).
Proof.
  intros Hwf [Hid Hgone].
  destruct e as [ws rx ry cr cg cb | ws m | i | ws | now dt rx ry | time];
    cbn [step].
  - split; assumption.
  - split; assumption.
  - unfold resume. destruct (nth_error (sleeping l) i) as [s | ]; [ | now split].
    destruct (clock l + clock_resolution <=? wake s)%py; [now split | ].
    cbn [game]. unfold retired.
    destruct (coins_apply_message (game l) (sleeper_ws s) (sleeper_message s))
      as [-> ->]. now split.
  - cbn [set_game game]. unfold retired.
    destruct (coins_unregister (game l) ws) as [-> ->]. now split.
  - destruct (update (game l) now dt rx ry) as [g | ] eqn:Hup; [ | now split].
    cbn [set_game game]. apply coins_update in Hup; [ | exact Hwf].
    destruct Hup as [Hcnt Hsub].
    split; [lia | ]. intros c Hc. destruct (Hsub c Hc) as [Hin | Heq].
    + now apply Hgone.
    + lia.
  - destruct (clock l <=? time)%py; now split.
Qed.

Lemma retired_run (events : list event) (id : Z) :
  forall l : EventLoop,
    wf (game l) -> retired id (game l) -> retired id (game (run l events)).
Proof.
  induction events as [ | e events IH]; intros l Hwf Hret; [exact Hret | ].
  cbn. apply IH; [now apply wf_step | now apply retired_step].
Qed.

Lemma touches_settle (dt : num) (p : Player) (cs : list Coin) (c : Coin) :
  touches (settle dt p cs) c = touches (placed dt p) c.
Proof. reflexivity. Qed.

Lemma sweep_touch (dt : num) (ps : dict Z Player) (c : Coin) :
  forall coins,
    existsb (fun e => touches (snd e) c) (fst (sweep dt ps coins)) =
    touched dt ps c.
Proof.
  induction ps as [ | [pid p] rest IH]; intros coins; [reflexivity | ].
  cbn [sweep]. specialize (IH (leftover dt p coins)).
  destruct (sweep dt rest (leftover dt p coins)) as [rest' coins'].
  unfold touched in *. cbn [fst snd existsb] in *.
  now rewrite IH, touches_settle.
Qed.
End Retired.

(** ** The server: the claims about one tick *)

Section TickClaims.
Context {num : Type} `{PyNum num} `{PyMath num} `{LoopClock num}.
Import Server.
Local Abbreviation Player := (@Player num).
Local Abbreviation GameServer := (@GameServer num).
Local Abbreviation EventLoop := (@EventLoop num).

Lemma NoDup_map_inj (A B : Type) (f : A -> B) (l : list A) (a b : A) :
  NoDup (map f l) -> In a l -> In b l -> f a = f b -> a = b.
Proof.
  induction l as [ | a0 l IH]; intros Hnd Ha Hb Hf; [destruct Ha | ].
  cbn in Hnd. inversion Hnd as [ | ? ? Hnotin Hnd']; subst.
  destruct Ha as [-> | Ha], Hb as [-> | Hb]; auto.
  - exfalso. apply Hnotin. rewrite Hf. now apply in_map.
  - exfalso. apply Hnotin. rewrite <- Hf. now apply in_map.
Qed.

Lemma sweep_firstn (dt : num) (ps : dict Z Player) :
  forall (coins : list Coin) (i : nat),
    firstn i (fst (sweep dt ps coins)) = fst (sweep dt (firstn i ps) coins).
Proof.
  induction ps as [ | [pid p] rest IH]; intros coins i.
  - now destruct i.
  - destruct i as [ | i]; [reflexivity | ].
    cbn [sweep firstn]. specialize (IH (leftover dt p coins) i).
    destruct (sweep dt rest (leftover dt p coins)) as [rest' coins'].
    destruct (sweep dt (firstn i rest) (leftover dt p coins)) as [rest'' coins''].
    cbn [fst firstn] in *. now f_equal.
Qed.

Lemma filter_touched_nil (dt : num) (coins : list Coin) :
  filter (fun c => negb (touched dt [] c)) coins = coins.
Proof.
  induction coins as [ | c coins IH]; [reflexivity | ]. cbn. now f_equal.
Qed.

(** The score of the [i]-th player after a pass of [sweep]. *)
Lemma sweep_score (dt : num) (ps : dict Z Player) (coins : list Coin)
    (i : nat) (pid : Z) (p : Player) :
  nth_error ps i = Some (pid, p) ->
  exists p',
    nth_error (fst (sweep dt ps coins)) i = Some (pid, p') /\
    score p' =
      score p +
      Z.of_nat (List.length
        (filter (fun c =>
                   touches p' c &&
                   negb (existsb (fun e => touches (snd e) c)
                           (firstn i (fst (sweep dt ps coins)))))
                coins)).
Proof.
  intros Hnth. eexists. split; [apply sweep_nth; exact Hnth | ].
  unfold settle at 1. cbn [score set_score].
  assert (Hp : score (placed dt p) = score p).
  { unfold placed, clamp_walls, move.
    repeat match goal with |- context [if ?b then _ else _] => destruct b end;
      reflexivity. }
  rewrite Hp. do 3 f_equal. rewrite filter_filter_and.
  apply filter_ext. intros c. rewrite touches_settle.
  rewrite sweep_firstn, sweep_touch. apply andb_comm.
Qed.

(** The scores after a tick with at least two players. *)
Lemma tick_scores (self : GameServer) (now dt : num) (rx ry : Z) :
  (2 <= List.length (players self))%nat ->
  NoDup (keys (players self)) ->
  exists g',
    update self now dt rx ry = Some g' /\
    (forall i pid p,
        nth_error (players self) i = Some (pid, p) ->
        exists p',
          nth_error (players g') i = Some (pid, p') /\
          score p' =
            score p +
            Z.of_nat (List.length
              (filter (fun c =>
                         touches p' c &&
                         negb (existsb (fun e => touches (snd e) c)
                                 (firstn i (players g'))))
                      (coins (spawned self now rx ry))))) /\
    total_score (players g') - total_score (players self) =
      Z.of_nat (List.length (coins (spawned self now rx ry))) -
      Z.of_nat (List.length (coins g')).
Proof.
  intros Hlen Hnd. eexists. split; [now apply update_playing | ].
  cbn [players coins set_players set_coins]. split.
  - intros i pid p Hnth. now apply sweep_score.
  - pose proof (sweep_total dt (players self) (coins (spawned self now rx ry))).
    lia.
Qed.

(** C5. In a tick with at least two players, a coin counts for the
    [i]-th player of the iteration exactly when that player, moved and
    clamped, touches it and no player before it in the iteration does:
    the score of the [i]-th player grows by the number of such coins, so
    a coin that several players touch goes to the first of them; and the
    scores grow in total by the number of coins removed. *)
Theorem first_player_in_order_collects
    (self : GameServer) (now dt : num) (rx ry : Z) :
  (2 <= List.length (players self))%nat ->
  NoDup (keys (players self)) ->
  exists g',
    update self now dt rx ry = Some g' /\
    let cs := coins (spawned self now rx ry) in
    (forall i pid p,
        nth_error (players self) i = Some (pid, p) ->
        exists p',
          nth_error (players g') i = Some (pid, p') /\
          score p' =
            score p +
            Z.of_nat (List.length
              (filter (fun c =>
                         touches p' c &&
                         negb (existsb (fun e => touches (snd e) c)
                                 (firstn i (players g'))))
                      cs))) /\
    total_score (players g') - total_score (players self) =
      Z.of_nat (List.length cs) - Z.of_nat (List.length (coins g')).
Proof.
  intros Hlen Hnd. cbn zeta. now apply tick_scores.
Qed.

(** C6. With fewer than two players [update] returns the state it was
    given, whatever the time, the step and the random draws: no player
    moves, no coin is spawned or tested, the spawn clock stays.  Any
    number of ticks in a row leaves the state as it was. *)
Theorem lobby_update_is_noop (l : EventLoop)
    (now dt : num) (rx ry : Z) (inputs : list (num * num * Z * Z)) :
  (List.length (players (game l)) < 2)%nat ->
  update (game l) now dt rx ry = Some (game l) /\
  game (run l (ticks inputs)) = game l.
Proof.
  intros Hlen. split; [now apply update_lobby | ].
  revert l Hlen. induction inputs as [ | [[[now' dt'] rx'] ry'] inputs IH];
    intros l Hlen; [reflexivity | ].
  cbn [ticks map run fold_left step].
  rewrite update_lobby by exact Hlen.
  assert (Hl : set_game l (game l) = l) by now destruct l.
  rewrite Hl. now apply IH.
Qed.
End TickClaims.

Section CoinClaims.
Context {num : Type} `{PyNum num} `{PyMath num} `{LoopClock num}.
Import Server.
Local Abbreviation Player := (@Player num).
Local Abbreviation GameServer := (@GameServer num).
Local Abbreviation EventLoop := (@EventLoop num).

(** C4. Take any state the server has reached, with at least two
    players, and run one tick on it.  Of the coins on the map when the
    player loop starts ([cs]: the coins of the state and the one spawned
    at this tick, if any), a coin is removed if and only if some player,
    at the position the tick leaves it at (moved, then clamped), is at a
    distance strictly below [PLAYER_SIZE + COIN_SIZE]; no other coin
    appears.  Each player's score grows by the number of coins that
    were still there at its turn and that it touches, and the scores
    grow in total by the number of coins removed.  No coin with the
    identity of a removed coin is on the map after any further events. *)
Theorem coin_removed_iff_touched
    (now1 now2 clock0 : num) (before after : list event)
    (now dt : num) (rx ry : Z) :
  let l := run (boot now1 now2 clock0) before in
  (2 <= List.length (players (game l)))%nat ->
  exists g',
    update (game l) now dt rx ry = Some g' /\
    let cs := coins (spawned (game l) now rx ry) in
    (forall c, In c cs ->
       (~ In c (coins g') <->
        exists pid p', In (pid, p') (players g') /\
                       (distance p' c <? of_Z (PLAYER_SIZE + COIN_SIZE))%py = true)) /\
    (forall c, In c (coins g') -> In c cs) /\
    (forall i pid p,
        nth_error (players (game l)) i = Some (pid, p) ->
        exists p',
          nth_error (players g') i = Some (pid, p') /\
          score p' =
            score p +
            Z.of_nat (List.length
              (filter (touches p')
                 (filter (fun c =>
                            negb (existsb (fun e => touches (snd e) c)
                                    (firstn i (players g'))))
                         cs)))) /\
    total_score (players g') - total_score (players (game l)) =
      Z.of_nat (List.length cs) - Z.of_nat (List.length (coins g')) /\
    (forall c, In c cs -> ~ In c (coins g') ->
       forall c', In c' (coins (game (run (set_game l g') after))) ->
                  coin_id c' <> coin_id c).
Proof.
  intros l Hlen.
  assert (Hwf : wf (game l)) by apply wf_reachable.
  destruct (@tick_scores _ _ _ (game l) now dt rx ry Hlen (proj1 Hwf))
    as [g' [Hup [Hscore Htotal]]].
  exists g'. split; [exact Hup | ]. cbn zeta in *.
  assert (Hcoins : coins g' =
            filter (fun c => negb (existsb (fun e => touches (snd e) c) (players g')))
                   (coins (spawned (game l) now rx ry))).
  { pose proof Hup as Hup'.
    rewrite update_playing in Hup' by (try exact Hlen; apply Hwf).
    injection Hup' as <-. cbn [players coins set_players set_coins].
    rewrite sweep_coins. apply filter_ext. intros c. now rewrite sweep_touch. }
  split; [ | split; [ | split; [ | split]]].
  - intros c Hc. rewrite Hcoins, filter_In. split.
    + intros Hout.
      destruct (existsb (fun e => touches (snd e) c) (players g')) eqn:E;
        [ | exfalso; apply Hout; now split].
      apply existsb_exists in E. destruct E as [[pid p'] [Hin Ht]].
      now exists pid, p'.
    + intros [pid [p' [Hin Ht]]] [_ Hneg].
      apply negb_true_iff in Hneg.
      assert (E : existsb (fun e => touches (snd e) c) (players g') = true)
        by (apply existsb_exists; now exists (pid, p')).
      congruence.
  - intros c Hc. rewrite Hcoins in Hc. apply filter_In in Hc. tauto.
  - intros i pid p Hnth. destruct (Hscore i pid p Hnth) as [p' [Hn Hs]].
    exists p'. split; [exact Hn | ]. rewrite Hs, filter_filter_and.
    do 3 f_equal. apply filter_ext. intros c. apply andb_comm.
  - exact Htotal.
  - intros c Hc Hout c' Hc'.
    assert (Hwf' : wf g') by (eapply wf_update; eassumption).
    assert (Hret : retired (coin_id c) g').
    { destruct (wf_spawned now rx ry Hwf) as (_ & _ & Hcn & Hcl).
      split.
      - apply Hcl in Hc.
        rewrite update_playing in Hup by (try exact Hlen; apply Hwf).
        injection Hup as <-. exact Hc.
      - intros c0 Hc0 Heq. apply Hout.
        assert (Hc0' : In c0 (coins (spawned (game l) now rx ry)))
          by (rewrite Hcoins in Hc0; apply filter_In in Hc0; tauto).
        assert (c0 = c) as <- by (eapply NoDup_map_inj; eassumption).
        exact Hc0. }
    exact (proj2 (@retired_run _ _ _ _ after (coin_id c) (set_game l g') Hwf' Hret)
             c' Hc').
Qed.
End CoinClaims.

Section MovementClaims.
Import Server.

Lemma placed_xy (num : Type) `{PyNum num} (dt : num) (p : @Player num) :
  x (placed dt p) =
    py_max (of_Z PLAYER_SIZE) (py_min (of_Z (MAP_WIDTH - PLAYER_SIZE)) (x (move p dt))) /\
  y (placed dt p) =
    py_max (of_Z PLAYER_SIZE) (py_min (of_Z (MAP_HEIGHT - PLAYER_SIZE)) (y (move p dt))).
Proof. split; reflexivity. Qed.

Lemma move_other (num : Type) `{PyNum num} (dt : num) (p : @Player num) :
  (forall s, input p = JStr s ->
             s <> "UP" /\ s <> "DOWN" /\ s <> "LEFT" /\ s <> "RIGHT") ->
  move p dt = p.
Proof.
  intros Hother. unfold move. destruct (truthy (input p)); [ | reflexivity].
  destruct (input p) as [ | b | z | f | s | l | l] eqn:E; try reflexivity.
  destruct (Hother s eq_refl) as (Hu & Hd & Hl & Hr). cbn [is_str].
  destruct (String.eqb_spec s "UP"); [contradiction | ].
  destruct (String.eqb_spec s "DOWN"); [contradiction | ].
  destruct (String.eqb_spec s "LEFT"); [contradiction | ].
  destruct (String.eqb_spec s "RIGHT"); [contradiction | ].
  reflexivity.
Qed.

(** C3. In a tick with at least two players every player ends at its
    position before the tick, displaced by [PLAYER_SPEED * dt] along one
    axis only (up and down along y, left and right along x, as its
    pending input says; not at all when there is no pending input or
    the input is none of the four), then clamped on both axes; the
    result lies in [[PLAYER_SIZE, MAP_WIDTH - PLAYER_SIZE]] on x and in
    [[PLAYER_SIZE, MAP_HEIGHT - PLAYER_SIZE]] on y. *)
Theorem tick_moves_along_one_axis
    (self : @GameServer float) (now dt : float) (rx ry : Z)
    (pid : Z) (p : Player) :
  (2 <= List.length (players self))%nat ->
  NoDup (keys (players self)) ->
  dict_get Z.eqb (players self) pid = Some p ->
  exists g' p',
    update self now dt rx ry = Some g' /\
    dict_get Z.eqb (players g') pid = Some p' /\
    let delta := (of_Z PLAYER_SPEED * dt)%py in
    let clamp_x v :=
      py_max (of_Z PLAYER_SIZE) (py_min (of_Z (MAP_WIDTH - PLAYER_SIZE)) v) in
    let clamp_y v :=
      py_max (of_Z PLAYER_SIZE) (py_min (of_Z (MAP_HEIGHT - PLAYER_SIZE)) v) in
    (input p = JStr "UP" ->
     x p' = clamp_x (x p) /\ y p' = clamp_y (y p - delta)%py) /\
    (input p = JStr "DOWN" ->
     x p' = clamp_x (x p) /\ y p' = clamp_y (y p + delta)%py) /\
    (input p = JStr "LEFT" ->
     x p' = clamp_x (x p - delta)%py /\ y p' = clamp_y (y p)) /\
    (input p = JStr "RIGHT" ->
     x p' = clamp_x (x p + delta)%py /\ y p' = clamp_y (y p)) /\
    ((forall s, input p = JStr s ->
                s <> "UP" /\ s <> "DOWN" /\ s <> "LEFT" /\ s <> "RIGHT") ->
     x p' = clamp_x (x p) /\ y p' = clamp_y (y p)) /\
    ((of_Z PLAYER_SIZE <=? x p')%py = true /\
     (x p' <=? of_Z (MAP_WIDTH - PLAYER_SIZE))%py = true) /\
    ((of_Z PLAYER_SIZE <=? y p')%py = true /\
     (y p' <=? of_Z (MAP_HEIGHT - PLAYER_SIZE))%py = true).
Proof.
  intros Hlen Hnd Hget.
  destruct (update self now dt rx ry) as [g' | ] eqn:Hup;
    [ | rewrite update_playing in Hup by assumption; discriminate].
  destruct (@update_places _ _ _ self g' now dt rx ry pid p Hlen Hnd Hup Hget)
    as [p' (Hget' & Hx & Hy & _)].
  exists g', p'. split; [reflexivity | ]. split; [exact Hget' | ].
  destruct (placed_xy dt p) as [Hpx Hpy]. rewrite Hx, Hy, Hpx, Hpy.
  cbn zeta.
  repeat match goal with |- _ /\ _ => split end;
    try (apply clamp_bounds; reflexivity);
    try (intros Hin; unfold move; rewrite Hin; split; reflexivity);
    intros Hother; rewrite move_other by exact Hother; split; reflexivity.
Qed.
End MovementClaims.

(** ** The server: the delay of inbound messages *)

Section Latency.
Context {num : Type} `{PyNum num} `{PyMath num} `{LoopClock num}.
Import Server.
Local Abbreviation EventLoop := (@EventLoop num).

Lemma run_snoc (l : EventLoop) (events : list event) (e : event) :
  run l (events ++ [e]) = step (run l events) e.
Proof. unfold run. now rewrite fold_left_app. Qed.

Lemma In_remove_nth (A : Type) (a : A) (l : list A) :
  forall i, In a (remove_nth i l) -> In a l.
Proof.
  induction l as [ | b l IH]; intros [ | i] Hin; cbn in *; auto.
  destruct Hin as [-> | Hin]; [now left | right; eauto].
Qed.

Lemma sleeping_step (l : EventLoop) (e : event) (s : Sleeper) :
  In s (sleeping (step l e)) ->
  In s (sleeping l) \/
  exists ws message,
    e = Receive ws message /\
    s = {| wake := (clock l + ARTIFICIAL_LATENCY)%py;
           sleeper_ws := ws; sleeper_message := message |}.
Proof.
  destruct e as [ws rx ry cr cg cb | ws m | i | ws | now dt rx ry | time];
    cbn [step]; intros Hin.
  - now left.
  - cbn in Hin. apply in_app_or in Hin. destruct Hin as [Hin | [<- | []]].
    + now left.
    + right. now exists ws, m.
  - left. unfold resume in Hin.
    destruct (nth_error (sleeping l) i) as [s' | ]; [ | exact Hin].
    destruct (clock l + clock_resolution <=? wake s')%py; [exact Hin | ].
    cbn in Hin. eapply In_remove_nth. exact Hin.
  - now left.
  - left. now destruct (update (game l) now dt rx ry).
  - left. now destruct (clock l <=? time)%py.
Qed.

(** Every parked coroutine was parked by a [Receive], with the deadline
    that event's clock plus the delay. *)
Lemma sleeping_origin (l0 : EventLoop) (events : list event) :
  sleeping l0 = [] ->
  forall s, In s (sleeping (run l0 events)) ->
    exists j,
      nth_error events j = Some (Receive (sleeper_ws s) (sleeper_message s)) /\
      wake s = (clock (run l0 (firstn j events)) + ARTIFICIAL_LATENCY)%py.
Proof.
  intros Hnil. induction events as [ | e events IH] using rev_ind; intros s Hin.
  - cbn in Hin. rewrite Hnil in Hin. destruct Hin.
  - rewrite run_snoc in Hin. apply sleeping_step in Hin.
    destruct Hin as [Hin | [ws [message [-> ->]]]].
    + destruct (IH s Hin) as [j [Hj Hw]].
      assert (Hlt : (j < List.length events)%nat)
        by (apply nth_error_Some; congruence).
      exists j. split.
      * now rewrite nth_error_app1.
      * rewrite firstn_app.
        replace (j - List.length events)%nat with 0%nat by lia.
        cbn [firstn]. now rewrite app_nil_r.
    + exists (List.length events). cbn [sleeper_ws sleeper_message wake]. split.
      * rewrite nth_error_app2 by lia. now rewrite Nat.sub_diag.
      * rewrite firstn_app, firstn_all, Nat.sub_diag. cbn [firstn].
        now rewrite app_nil_r.
Qed.

(** C9, as the loop does it.  The arrival of a message changes nothing
    in the game: it only parks a coroutine, with the timer
    [loop.time() + ARTIFICIAL_LATENCY].  When the loop, after any
    events, resumes a parked coroutine, either nothing at all happens,
    or the game becomes what [handle_client_message] makes of one
    message that an earlier event delivered, and the test of the loop
    has passed: the timer of that delivery is not at or after the clock
    plus the clock resolution.  So the effect is never visible more
    than a clock resolution before the timer. *)
Theorem input_waits_for_the_timer
    (now1 now2 clock0 : num) (events : list event) (i : nat)
    (ws0 : websocket) (message0 : option (json num)) :
  let l := run (boot now1 now2 clock0) events in
  game (step l (Receive ws0 message0)) = game l /\
  (step l (Resume i) = l \/
   exists j ws message,
     nth_error events j = Some (Receive ws message) /\
     let arrival := clock (run (boot now1 now2 clock0) (firstn j events)) in
     let timer := (arrival + ARTIFICIAL_LATENCY)%py in
     (clock l + clock_resolution <=? timer)%py = false /\
     game (step l (Resume i)) = apply_message (game l) ws message).
Proof.
  intros l. split; [reflexivity | ].
  cbn [step]. unfold resume.
  destruct (nth_error (sleeping l) i) as [s | ] eqn:Hnth; [ | now left].
  cbn zeta.
  destruct (clock l + clock_resolution <=? wake s)%py eqn:Hwake; [now left | ].
  right. apply nth_error_In in Hnth.
  destruct (@sleeping_origin (boot now1 now2 clock0) events eq_refl s Hnth)
    as [j [Hj Hw]].
  exists j, (sleeper_ws s), (sleeper_message s).
  split; [exact Hj | ]. rewrite <- Hw. now split.
Qed.
End Latency.

(** ** The server: the broadcast message *)

Section Broadcast.
Context {num : Type} `{PyNum num} `{PyMath num} `{LoopClock num}.
Import Server.

(** C1, as the server does it.  In every message [broadcast_state]
    hands over, the value under "players" has one entry for each player
    of the state, under that player's identity, and the entry has
    exactly the keys x, y, color, score and input: the player's
    position, color, score and also its pending input. *)
Theorem snapshot_entry_has_five_keys
    (self : @GameServer num) (now : num) (message : json num) :
  broadcast_state self now = Some message ->
  exists entries,
    get_item message "players" = Some (JDict entries) /\
    (forall pid p,
        In (pid, p) (players self) ->
        exists entry, In (str pid, entry) entries /\ entry = player_json p) /\
    (forall key entry,
        In (key, entry) entries ->
        exists pid p cr cg cb,
          In (pid, p) (players self) /\ key = str pid /\
          color p = (cr, cg, cb) /\
          entry = JDict [("x", JFloat (x p)); ("y", JFloat (y p));
                         ("color", JList [JInt cr; JInt cg; JInt cb]);
                         ("score", JInt (score p));
                         ("input", input p)]).
Proof.
  unfold broadcast_state. destruct (clients self) as [ | c cl]; [discriminate | ].
  intros [= <-]. eexists. split; [reflexivity | ]. split.
  - intros pid p Hin. exists (player_json p). split; [ | reflexivity].
    apply in_map_iff. now exists (pid, p).
  - intros key entry Hin. apply in_map_iff in Hin.
    destruct Hin as [[pid p] [[= <- <-] Hin]].
    destruct (color p) as [[cr cg] cb] eqn:Hc.
    exists pid, p, cr, cg, cb. repeat split; auto.
    unfold player_json. now rewrite Hc.
Qed.
End Broadcast.

(** ** Worked inputs *)

Section Worked.
Import Server.

(** The two decimal constants are the doubles Python reads them as:
    [0.2] is [0x1.999999999999ap-3] and [0.1] is [0x1.999999999999ap-4]. *)
Example latency_is_the_double_0_2 :
  @ARTIFICIAL_LATENCY float _ = S754_finite false 7205759403792794 (-55) /\
  @Client.INTERPOLATION_OFFSET float _ = S754_finite false 7205759403792794 (-56).
Proof. split; vm_compute; reflexivity. Qed.

(** Scenario 3 of the specification: a player of radius 20 at distance
    29 of the coin at (50, 50) collects it, at distance 30 or 31 it does
    not. *)
Example scenario_3 :
  touches (Sample.player_at 79 50) Sample.coin_50_50 = true /\
  touches (Sample.player_at 80 50) Sample.coin_50_50 = false /\
  touches (Sample.player_at 81 50) Sample.coin_50_50 = false.
Proof. repeat split; vm_compute; reflexivity. Qed.

(** Scenario 1 of the specification: from (100, 100) to (200, 100) at
    [alpha] = 1/2 is (150, 100), without rounding and in doubles. *)
Example scenario_1 :
  (Client.linear_interpolate (num := Q) 100 200 (1 # 2) == 150)%Q /\
  (Client.linear_interpolate (num := Q) 100 100 (1 # 2) == 100)%Q /\
  Client.linear_interpolate (num := float) (of_Z 100) (of_Z 200) (decimal 1 2) =
    of_Z 150.
Proof. repeat split; vm_compute; reflexivity. Qed.

(** Three buffered snapshots rendered at time 1: the oldest is dropped,
    the two newest stay. *)
Example trim_drops_the_oldest :
  Client.state_buffer (snd (Client.get_render_state Sample.now Sample.client3)) =
  [Sample.snapshot1; Sample.snapshot2].
Proof. vm_compute. reflexivity. Qed.

(** In the tick of the sample run player 1 goes right from x = 100 to
    x = 105, takes the coin spawned at (110, 100) and scores. *)
Example sample_tick :
  match update (game Sample.playing) Sample.tick_now Sample.tick_dt 110 100 with
  | Some g' =>
      match dict_get Z.eqb (players g') 1 with
      | Some p' =>
          x p' = of_Z 105 /\ y p' = of_Z 100 /\ score p' = 1 /\ coins g' = []
      | None => False
      end
  | None => False
  end.
Proof. vm_compute. repeat split; reflexivity. Qed.
End Worked.

(** ** The theorems at the sample inputs *)

Section Witnesses.
Import Server.
#[local] Existing Instance Sample.nanosecond.

Ltac distinct := repeat constructor; cbn; intuition discriminate.

Lemma snapshot_entry_has_five_keys_witness :
  exists entries, get_item Sample.message "players" = Some (JDict entries).
Proof.
  assert (Hsent : broadcast_state (game Sample.playing) Sample.tick_now =
                  Some Sample.message) by (vm_compute; reflexivity).
  destruct (snapshot_entry_has_five_keys _ _ Hsent) as [entries [Hget _]].
  exists entries. exact Hget.
Defined.

(** C1 fails on the message broadcast from the sample run: the entry of
    player 1 has the key input, with the pending intent RIGHT. *)
Lemma snapshot_entry_carries_input :
  broadcast_state (game Sample.playing) Sample.tick_now = Some Sample.message /\
  get_item Sample.message "players" =
    Some (JDict [("1", player_json Sample.player1);
                 ("2", player_json {| x := of_Z 400; y := of_Z 300;
                                      color := (0, 255, 0); score := 0;
                                      input := JNull |})]) /\
  get_item (player_json Sample.player1) "input" = Some (JStr "RIGHT").
Proof. repeat split; vm_compute; reflexivity. Qed.

Lemma tick_moves_along_one_axis_witness :
  exists g' p',
    update (game Sample.playing) Sample.tick_now Sample.tick_dt 110 100 = Some g' /\
    dict_get Z.eqb (players g') 1 = Some p'.
Proof.
  assert (Hlen : (2 <= List.length (players (game Sample.playing)))%nat)
    by (vm_compute; lia).
  assert (Hnd : NoDup (keys (players (game Sample.playing))))
    by (vm_compute; distinct).
  assert (Hget : dict_get Z.eqb (players (game Sample.playing)) 1 =
                 Some Sample.player1) by (vm_compute; reflexivity).
  destruct (tick_moves_along_one_axis (game Sample.playing)
              Sample.tick_now Sample.tick_dt 110 100 1 Hlen Hnd Hget)
    as [g' [p' [Hup [Hget' _]]]].
  exists g', p'. split; [exact Hup | exact Hget'].
Defined.

Lemma coin_removed_iff_touched_witness :
  exists g',
    update (game Sample.playing) Sample.tick_now Sample.tick_dt 110 100 = Some g'.
Proof.
  assert (Hlen : (2 <= List.length (players (game Sample.playing)))%nat)
    by (vm_compute; lia).
  destruct (coin_removed_iff_touched (of_Z 0) (of_Z 0) (of_Z 0)
              Sample.steered [] Sample.tick_now Sample.tick_dt 110 100 Hlen)
    as [g' [Hup _]].
  exists g'. exact Hup.
Defined.

Lemma first_player_in_order_collects_witness :
  exists g',
    update (game Sample.playing) Sample.tick_now Sample.tick_dt 110 100 = Some g'.
Proof.
  assert (Hlen : (2 <= List.length (players (game Sample.playing)))%nat)
    by (vm_compute; lia).
  assert (Hnd : NoDup (keys (players (game Sample.playing))))
    by (vm_compute; distinct).
  destruct (first_player_in_order_collects (game Sample.playing)
              Sample.tick_now Sample.tick_dt 110 100 Hlen Hnd)
    as [g' [Hup _]].
  exists g'. exact Hup.
Defined.

Lemma lobby_update_is_noop_witness :
  update (game Sample.lobby) Sample.tick_now Sample.tick_dt 110 100 =
    Some (game Sample.lobby) /\
  game (run Sample.lobby
          (ticks [(Sample.tick_now, Sample.tick_dt, 110, 100);
                  (Sample.tick_now, Sample.tick_dt, 30, 40)])) =
    game Sample.lobby.
Proof.
  assert (Hlen : (List.length (players (game Sample.lobby)) < 2)%nat)
    by (vm_compute; lia).
  exact (lobby_update_is_noop Sample.lobby Sample.tick_now Sample.tick_dt 110 100
           [(Sample.tick_now, Sample.tick_dt, 110, 100);
            (Sample.tick_now, Sample.tick_dt, 30, 40)] Hlen).
Defined.

Lemma trim_keeps_bracketing_pair_witness :
  (2 <= List.length
          (Client.state_buffer
             (snd (Client.get_render_state Sample.now Sample.client3))))%nat.
Proof.
  assert (Hlen : (2 <= List.length (Client.state_buffer Sample.client3))%nat)
    by (vm_compute; lia).
  destruct (trim_keeps_bracketing_pair Sample.now Sample.client3 Hlen)
    as [_ [Hlen' _]].
  exact Hlen'.
Defined.

Lemma interpolation_stays_between_witness :
  (of_Z 0 <=? Client.compute_alpha Sample.now Sample.snapshot0 Sample.snapshot1)%py
    = true.
Proof.
  assert (Hlen : (2 <= List.length (Client.state_buffer Sample.e_client))%nat)
    by (vm_compute; lia).
  destruct (interpolation_stays_between Sample.now Sample.snapshot0
              Sample.snapshot1 1%Q Sample.e_client Hlen) as [[Hlo _] _].
  exact Hlo.
Defined.

(** C10 fails on the sample client: from x = 20.2 to x = 52.4 the
    rendered x is 52.400000000000006, above both. *)
Lemma rounding_leaves_the_interval :
  exists p,
    fst (fst (fst (Client.get_render_state Sample.now Sample.client))) = [("3", p)] /\
    dict_get String.eqb (Client.players Sample.snapshot0) "3" = Some Sample.p_prev /\
    In ("3", Sample.p_next) (Client.players Sample.snapshot1) /\
    (Client.x Sample.p_prev <? Client.x Sample.p_next)%py = true /\
    (Client.x Sample.p_next <? Client.x p)%py = true /\
    (Client.x p <=? Client.x Sample.p_next)%py = false.
Proof.
  eexists. split; [vm_compute; reflexivity | ].
  repeat split; try (vm_compute; reflexivity). now left.
Qed.
(** C9 fails on the sample run [hurried]: the message arrives at the
    clock reading 1.0 and its timer is [1.0 + 0.2 = 1.2]; at the clock
    reading 1.2 the loop resumes the coroutine and the intent is in the
    game, while the time elapsed since the arrival, [1.2 - 1.0 =
    0.19999999999999996], is less than [ARTIFICIAL_LATENCY]. *)
Lemma effect_before_the_delay_has_elapsed :
  let l := run Sample.started Sample.hurried in
  let arrival := clock (run Sample.started (firstn 2 Sample.hurried)) in
  nth_error Sample.hurried 2 = Some (Receive 1%nat (Some Sample.go_right)) /\
  arrival = of_Z 1 /\
  clock l = decimal 12 10 /\
  dict_get Z.eqb (players (game l)) 1 =
    Some {| x := of_Z 100; y := of_Z 100; color := (255, 0, 0); score := 0;
            input := JNull |} /\
  dict_get Z.eqb (players (game (step l (Resume 0)))) 1 =
    Some {| x := of_Z 100; y := of_Z 100; color := (255, 0, 0); score := 0;
            input := JStr "RIGHT" |} /\
  (clock l - arrival)%py = S754_finite false 7205759403792792 (-55) /\
  ARTIFICIAL_LATENCY = S754_finite false 7205759403792794 (-55) /\
  (clock l - arrival <? ARTIFICIAL_LATENCY)%py = true.
Proof. repeat split; vm_compute; reflexivity. Qed.
End Witnesses.

(** * Further properties *)

(** ** Dictionaries, for any key *)

Section DictLaws.
Variables K V : Type.
Variable keq : K -> K -> bool.
Hypothesis keq_eq : forall a b, keq a b = true <-> a = b.
Implicit Types (d : dict K V) (k : K) (v : V).

Lemma keq_refl k : keq k k = true.
Proof. now apply keq_eq. Qed.

Lemma keq_neq k k' : k <> k' -> keq k k' = false.
Proof.
  intros Hne. destruct (keq k k') eqn:E; [ | reflexivity].
  apply keq_eq in E. contradiction.
Qed.

Lemma get_set_same d k v : dict_get keq (dict_set keq d k v) k = Some v.
Proof.
  induction d as [ | [k0 v0] d IH]; cbn.
  - now rewrite keq_refl.
  - destruct (keq k k0) eqn:E; cbn; rewrite E; [reflexivity | exact IH].
Qed.

Lemma get_set_other d k k' v :
  k' <> k -> dict_get keq (dict_set keq d k v) k' = dict_get keq d k'.
Proof.
  intros Hne. induction d as [ | [k0 v0] d IH]; cbn.
  - now rewrite keq_neq.
  - destruct (keq k k0) eqn:E; cbn.
    + apply keq_eq in E. subst k0. now rewrite keq_neq.
    + now rewrite IH.
Qed.

Lemma get_None_keys d k : dict_get keq d k = None <-> ~ In k (keys d).
Proof.
  induction d as [ | [k0 v0] d IH]; cbn; [tauto | ].
  destruct (keq k k0) eqn:E.
  - apply keq_eq in E. subst k0. split; [discriminate | tauto].
  - rewrite IH. split; [ | tauto].
    intros Hn [Heq | Hin]; [ | tauto].
    subst k0. now rewrite keq_refl in E.
Qed.

Lemma get_Some_In d k v : dict_get keq d k = Some v -> In (k, v) d.
Proof.
  induction d as [ | [k0 v0] d IH]; cbn; [discriminate | ].
  destruct (keq k k0) eqn:E.
  - apply keq_eq in E. subst k0. intros [= ->]. now left.
  - intros Hget. right. now apply IH.
Qed.

Lemma In_get_Some d k v :
  NoDup (keys d) -> In (k, v) d -> dict_get keq d k = Some v.
Proof.
  induction d as [ | [k0 v0] d IH]; cbn; intros Hnd Hin; [tauto | ].
  inversion Hnd as [ | ? ? Hnotin Hnd']; subst.
  destruct Hin as [[= -> ->] | Hin]; [now rewrite keq_refl | ].
  destruct (keq k k0) eqn:E; [ | now apply IH].
  apply keq_eq in E. subst k0. exfalso. apply Hnotin.
  apply in_map_iff. now exists (k, v).
Qed.

Lemma set_absent d k v :
  dict_get keq d k = None -> dict_set keq d k v = d ++ [(k, v)].
Proof.
  induction d as [ | [k0 v0] d IH]; cbn; [reflexivity | ].
  destruct (keq k k0); [discriminate | ].
  intros Hget. now rewrite IH.
Qed.

Lemma keys_set_present d k v v' :
  dict_get keq d k = Some v' -> keys (dict_set keq d k v) = keys d.
Proof.
  induction d as [ | [k0 v0] d IH]; cbn; [discriminate | ].
  destruct (keq k k0); [reflexivity | ].
  intros Hget. cbn. f_equal. now apply IH.
Qed.

Lemma NoDup_keys_set d k v : NoDup (keys d) -> NoDup (keys (dict_set keq d k v)).
Proof.
  intros Hnd. destruct (dict_get keq d k) as [v' | ] eqn:Hget.
  - now rewrite (keys_set_present _ _ _ Hget).
  - rewrite (set_absent _ _ _ Hget). unfold keys. rewrite map_app. cbn.
    apply NoDup_app; [exact Hnd | repeat constructor; intros [] | ].
    intros a Ha [<- | []]. now apply get_None_keys in Hget.
Qed.

Lemma In_set d k v k' v' :
  In (k', v') (dict_set keq d k v) -> (k' = k /\ v' = v) \/ In (k', v') d.
Proof.
  induction d as [ | [k0 v0] d IH]; cbn.
  - intros [[= <- <-] | []]. now left.
  - destruct (keq k k0) eqn:E; cbn.
    + apply keq_eq in E. subst k0. intros [[= <- <-] | Hin]; [now left | tauto].
    + intros [Heq | Hin]; [tauto | ]. destruct (IH Hin); tauto.
Qed.

Lemma In_pop d k e : In e (dict_pop keq d k) -> In e d.
Proof.
  induction d as [ | [k0 v0] d IH]; cbn; [tauto | ].
  destruct (keq k k0); cbn; [tauto | ].
  intros [Heq | Hin]; [tauto | right; now apply IH].
Qed.

Lemma NoDup_keys_pop d k : NoDup (keys d) -> NoDup (keys (dict_pop keq d k)).
Proof.
  induction d as [ | [k0 v0] d IH]; cbn; intros Hnd; [constructor | ].
  inversion Hnd as [ | ? ? Hnotin Hnd']; subst.
  destruct (keq k k0); [assumption | ].
  cbn. constructor; [ | now apply IH].
  intros Hin. apply Hnotin. apply in_map_iff in Hin.
  destruct Hin as [[k1 v1] [Heq Hin]]. apply In_pop in Hin.
  apply in_map_iff. now exists (k1, v1).
Qed.

Lemma get_pop_same d k : NoDup (keys d) -> dict_get keq (dict_pop keq d k) k = None.
Proof.
  induction d as [ | [k0 v0] d IH]; cbn; intros Hnd; [reflexivity | ].
  inversion Hnd as [ | ? ? Hnotin Hnd']; subst.
  destruct (keq k k0) eqn:E.
  - apply keq_eq in E. subst k0. now apply get_None_keys.
  - cbn. rewrite E. now apply IH.
Qed.

Lemma get_pop_other d k k' :
  k' <> k -> dict_get keq (dict_pop keq d k) k' = dict_get keq d k'.
Proof.
  intros Hne. induction d as [ | [k0 v0] d IH]; cbn; [reflexivity | ].
  destruct (keq k k0) eqn:E; cbn.
  - apply keq_eq in E. subst k0. now rewrite keq_neq.
  - now rewrite IH.
Qed.

Lemma pop_set_absent d k v :
  dict_get keq d k = None -> dict_pop keq (dict_set keq d k v) k = d.
Proof.
  induction d as [ | [k0 v0] d IH]; cbn.
  - now rewrite keq_refl.
  - destruct (keq k k0) eqn:E; [discriminate | ].
    intros Hget. cbn. rewrite E. now rewrite IH.
Qed.
End DictLaws.

(** ** Joining and leaving *)

Section Registry.
Context {num : Type} `{PyNum num} `{PyMath num} `{LoopClock num}.
Import Server.
Local Abbreviation Player := (@Player num).
Local Abbreviation GameServer := (@GameServer num).
Local Abbreviation EventLoop := (@EventLoop num).

Lemma wf_clients_init (now1 now2 : num) : wf_clients (init now1 now2).
Proof.
  unfold wf_clients, init. cbn. repeat split; try constructor; try lia;
    destruct H1.
Qed.

Lemma wf_clients_register (g : GameServer) (ws : websocket) (rx ry cr cg cb : Z) :
  wf_clients g -> wf_clients (fst (register g ws rx ry cr cg cb)).
Proof.
  intros (Hnd & Hone & Hpid). unfold wf_clients, register.
  cbn [fst clients next_player_id set_clients set_players set_next_player_id].
  split; [now apply (NoDup_keys_set Nat.eqb Nat.eqb_eq) | ].
  split; [lia | ]. intros ws' pid Hin.
  apply (In_set Nat.eqb Nat.eqb_eq) in Hin. destruct Hin as [[_ ->] | Hin].
  - lia.
  - apply Hpid in Hin. lia.
Qed.

Lemma wf_clients_unregister (g : GameServer) (ws : websocket) :
  wf_clients g -> wf_clients (unregister g ws).
Proof.
  intros Hwc. unfold unregister.
  destruct (dict_get Nat.eqb (clients g) ws) as [pid | ]; [ | exact Hwc].
  destruct Hwc as (Hnd & Hone & Hpid).
  assert (Hw : wf_clients (set_clients g (dict_pop Nat.eqb (clients g) ws))).
  { unfold wf_clients. cbn [clients next_player_id set_clients].
    split; [now apply NoDup_keys_pop | ].
    split; [exact Hone | ]. intros ws' pid' Hin.
    apply In_pop in Hin. now apply (Hpid ws'). }
  destruct (pid =? 0); exact Hw.
Qed.

Lemma clients_apply_message (g : GameServer) (ws : websocket)
    (message : option (json num)) :
  clients (apply_message g ws message) = clients g /\
  next_player_id (apply_message g ws message) = next_player_id g.
Proof.
  unfold apply_message.
  repeat match goal with
         | |- context [match ?t with _ => _ end] => destruct t
         end; split; reflexivity.
Qed.

Lemma clients_update (g g' : GameServer) (now dt : num) (rx ry : Z) :
  NoDup (keys (players g)) ->
  update g now dt rx ry = Some g' ->
  clients g' = clients g /\ next_player_id g' = next_player_id g.
Proof.
  intros Hnd Hup.
  destruct (Nat.lt_ge_cases (List.length (players g)) 2) as [Hlt | Hge].
  - rewrite update_lobby in Hup by exact Hlt. injection Hup as <-. now split.
  - rewrite update_playing in Hup by assumption. injection Hup as <-.
    cbn [clients next_player_id set_players set_coins]. unfold spawned.
    destruct (gtb _ _); split; reflexivity.
Qed.

Lemma wf_clients_step (l : EventLoop) (e : event) :
  wf (game l) -> wf_clients (game l) -> wf_clients (game (step l e)).
Proof.
  intros Hwf Hwc.
  destruct e as [ws rx ry cr cg cb | ws m | i | ws | now dt rx ry | time];
    cbn [step].
  - now apply wf_clients_register.
  - exact Hwc.
  - unfold resume. destruct (nth_error (sleeping l) i) as [s | ]; [ | exact Hwc].
    destruct (clock l + clock_resolution <=? wake s)%py; [exact Hwc | ].
    cbn [game]. unfold wf_clients.
    destruct (clients_apply_message (game l) (sleeper_ws s) (sleeper_message s))
      as [-> ->]. exact Hwc.
  - now apply wf_clients_unregister.
  - destruct (update (game l) now dt rx ry) as [g | ] eqn:Hup; [ | exact Hwc].
    cbn [set_game game]. unfold wf_clients.
    apply clients_update in Hup; [ | apply Hwf]. destruct Hup as [-> ->].
    exact Hwc.
  - destruct (clock l <=? time)%py; exact Hwc.
Qed.

Lemma wf_clients_run (events : list event) :
  forall l : EventLoop,
    wf (game l) -> wf_clients (game l) -> wf_clients (game (run l events)).
Proof.
  induction events as [ | e events IH]; intros l Hwf Hwc; [exact Hwc | ].
  cbn. apply IH; [now apply wf_step | now apply wf_clients_step].
Qed.

Lemma wf_clients_reachable (now1 now2 clock0 : num) (events : list event) :
  wf_clients (game (run (boot now1 now2 clock0) events)).
Proof. apply wf_clients_run; [apply wf_init | apply wf_clients_init]. Qed.

(** X10. In every state the server reaches, the player identities are
    pairwise distinct and below the next identity to hand out, the coin
    identities are pairwise distinct and below the coin counter, the
    connections are pairwise distinct, and the identity of every
    connection is at least 1, so that the test [if not pid] of
    [handle_client_message] and [if pid] of [unregister] never reject a
    registered connection. *)
Theorem identities_are_unique (now1 now2 clock0 : num) (events : list event) :
  let g := game (run (boot now1 now2 clock0) events) in
  NoDup (keys (players g)) /\
  (forall pid, In pid (keys (players g)) -> pid < next_player_id g) /\
  NoDup (map coin_id (coins g)) /\
  (forall c, In c (coins g) -> coin_id c < coin_counter g) /\
  NoDup (keys (clients g)) /\
  (forall ws pid, dict_get Nat.eqb (clients g) ws = Some pid ->
                  (pid =? 0) = false /\ pid < next_player_id g).
Proof.
  intros g. subst g.
  destruct (wf_reachable now1 now2 clock0 events) as (Hnd & Hlt & Hcn & Hcl).
  destruct (wf_clients_reachable now1 now2 clock0 events) as (Hcd & Hone & Hpid).
  do 5 (split; [assumption | ]).
  intros ws pid Hget.
  apply (get_Some_In Nat.eqb Nat.eqb_eq), Hpid in Hget.
  split; [apply Z.eqb_neq; lia | lia].
Qed.

(** X1. On any state the server has reached, [register] hands out the
    identity [next_player_id], which no player has; the new player is
    appended to the players, after all the others in iteration order, at
    the drawn position, with the drawn color, score 0 and no input; the
    connection is mapped to the identity, the next identity is one more,
    the coins are untouched, and the handshake message carries the
    identity. *)
Theorem register_appends_a_fresh_player
    (now1 now2 clock0 : num) (events : list event)
    (ws : websocket) (rx ry cr cg cb : Z) :
  let g := game (run (boot now1 now2 clock0) events) in
  let pid := next_player_id g in
  let joined := register g ws rx ry cr cg cb in
  dict_get Z.eqb (players g) pid = None /\
  players (fst joined) =
    players g ++ [(pid, {| x := of_Z rx; y := of_Z ry; color := (cr, cg, cb);
                           score := 0; input := JNull |})] /\
  dict_get Nat.eqb (clients (fst joined)) ws = Some pid /\
  next_player_id (fst joined) = pid + 1 /\
  coins (fst joined) = coins g /\
  snd joined = JDict [("type", JStr "init"); ("id", JInt pid)].
Proof.
  intros g pid joined.
  destruct (wf_reachable now1 now2 clock0 events) as (Hnd & Hlt & _).
  assert (Hfresh : dict_get Z.eqb (players g) pid = None).
  { apply (get_None_keys Z.eqb Z.eqb_eq). intros Hin. apply Hlt in Hin.
    unfold pid, g in Hin. lia. }
  split; [exact Hfresh | ]. unfold joined, register.
  cbn [fst snd players clients coins next_player_id
       set_players set_clients set_next_player_id].
  split; [now apply set_absent | ].
  split; [apply (get_set_same Nat.eqb Nat.eqb_eq) | ].
  repeat split.
Qed.

(** X2. On any reached state, a connection that joins and leaves at once
    leaves the players, the connections and the coins as they were: only
    the identity counter has moved on, so the identity is not handed out
    again. *)
Theorem leaving_undoes_joining
    (now1 now2 clock0 : num) (events : list event)
    (ws : websocket) (rx ry cr cg cb : Z) :
  let g := game (run (boot now1 now2 clock0) events) in
  dict_get Nat.eqb (clients g) ws = None ->
  unregister (fst (register g ws rx ry cr cg cb)) ws =
  set_next_player_id g (next_player_id g + 1).
Proof.
  intros g Hnew.
  destruct (wf_reachable now1 now2 clock0 events) as (Hnd & Hlt & _).
  destruct (wf_clients_reachable now1 now2 clock0 events) as (_ & Hone & _).
  fold g in Hnd, Hlt, Hone.
  assert (Hfresh : dict_get Z.eqb (players g) (next_player_id g) = None).
  { apply (get_None_keys Z.eqb Z.eqb_eq). intros Hin. apply Hlt in Hin. lia. }
  unfold unregister, register.
  cbn [fst players clients coins next_player_id
       set_players set_clients set_next_player_id].
  rewrite (get_set_same Nat.eqb Nat.eqb_eq).
  destruct (Z.eqb_spec (next_player_id g) 0) as [Hz | _]; [lia | ].
  rewrite (pop_set_absent Nat.eqb Nat.eqb_eq _ _ _ Hnew).
  rewrite (pop_set_absent Z.eqb Z.eqb_eq _ _ _ Hfresh).
  now destruct g.
Qed.

(** X3. On any reached state, [unregister] of a connection that is not
    registered changes nothing; for a registered one it removes that
    connection and its player and nothing else: every other connection
    and every other player is as before, and so are the coins, the coin
    counter and the identity counter. *)
Theorem unregister_removes_one_player
    (now1 now2 clock0 : num) (events : list event) (ws : websocket) :
  let g := game (run (boot now1 now2 clock0) events) in
  let g' := unregister g ws in
  (dict_get Nat.eqb (clients g) ws = None -> g' = g) /\
  (forall pid,
      dict_get Nat.eqb (clients g) ws = Some pid ->
      dict_get Nat.eqb (clients g') ws = None /\
      dict_get Z.eqb (players g') pid = None /\
      (forall ws', ws' <> ws ->
         dict_get Nat.eqb (clients g') ws' = dict_get Nat.eqb (clients g) ws') /\
      (forall pid', pid' <> pid ->
         dict_get Z.eqb (players g') pid' = dict_get Z.eqb (players g) pid') /\
      coins g' = coins g /\ coin_counter g' = coin_counter g /\
      next_player_id g' = next_player_id g).
Proof.
  intros g g'.
  destruct (wf_reachable now1 now2 clock0 events) as (Hnd & _).
  destruct (wf_clients_reachable now1 now2 clock0 events) as (Hcd & Hone & Hpid).
  fold g in Hnd, Hcd, Hone, Hpid. unfold g', unregister. split.
  - intros Hnone. now rewrite Hnone.
  - intros pid Hget. rewrite Hget.
    assert (Hp : (pid =? 0) = false).
    { apply (get_Some_In Nat.eqb Nat.eqb_eq), Hpid in Hget.
      apply Z.eqb_neq. lia. }
    rewrite Hp.
    cbn [players clients coins coin_counter next_player_id set_players set_clients].
    split; [now apply get_pop_same; [apply Nat.eqb_eq | ] | ].
    split; [now apply get_pop_same; [apply Z.eqb_eq | ] | ].
    split; [intros ws' Hne; now apply get_pop_other; [apply Nat.eqb_eq | ] | ].
    split; [intros pid' Hne; now apply get_pop_other; [apply Z.eqb_eq | ] | ].
    repeat split.
Qed.
End Registry.

(** ** Inbound messages *)

Section Messages.
Context {num : Type} `{PyNum num} `{PyMath num} `{LoopClock num}.
Import Server.
Local Abbreviation Player := (@Player num).
Local Abbreviation GameServer := (@GameServer num).

(** X4. [handle_client_message] leaves the game as it is when the text
    does not decode, when the connection is not registered, when the
    document has no type or a type other than input, when an input
    document has no direction, and when the player of the connection is
    gone. *)
Theorem bad_message_changes_nothing
    (g : GameServer) (ws : websocket) (data : json num) :
  apply_message g ws None = g /\
  (dict_get Nat.eqb (clients g) ws = None -> apply_message g ws (Some data) = g) /\
  (dict_get Nat.eqb (clients g) ws = Some 0 -> apply_message g ws (Some data) = g) /\
  (get_item data "type" = None -> apply_message g ws (Some data) = g) /\
  (forall ty, get_item data "type" = Some ty -> is_str ty "input" = false ->
              apply_message g ws (Some data) = g) /\
  (get_item data "direction" = None -> apply_message g ws (Some data) = g) /\
  (forall pid, dict_get Nat.eqb (clients g) ws = Some pid ->
               dict_get Z.eqb (players g) pid = None ->
               apply_message g ws (Some data) = g).
Proof.
  unfold apply_message. repeat split.
  - intros ->. reflexivity.
  - intros ->. reflexivity.
  - intros ->. destruct (dict_get Nat.eqb (clients g) ws) as [pid | ]; [ | reflexivity].
    now destruct (pid =? 0).
  - intros ty -> ->.
    destruct (dict_get Nat.eqb (clients g) ws) as [pid | ]; [ | reflexivity].
    now destruct (pid =? 0).
  - intros ->. destruct (dict_get Nat.eqb (clients g) ws) as [pid | ]; [ | reflexivity].
    destruct (pid =? 0); [reflexivity | ].
    destruct (get_item data "type") as [ty | ]; [ | reflexivity].
    now destruct (is_str ty "input").
  - intros pid -> ->. destruct (pid =? 0); [reflexivity | ].
    destruct (get_item data "type") as [ty | ]; [ | reflexivity].
    destruct (is_str ty "input"); [ | reflexivity].
    now destruct (get_item data "direction").
Qed.

Lemma apply_message_input (g : GameServer) (ws : websocket) (data ty d : json num)
    (pid : Z) (p : Player) :
  dict_get Nat.eqb (clients g) ws = Some pid -> pid <> 0 ->
  dict_get Z.eqb (players g) pid = Some p ->
  get_item data "type" = Some ty -> is_str ty "input" = true ->
  get_item data "direction" = Some d ->
  apply_message g ws (Some data) =
  set_players g (dict_set Z.eqb (players g) pid (set_input p d)).
Proof.
  intros Hws Hpid Hp Hty Hin Hd. unfold apply_message.
  rewrite Hws, Hty, Hin, Hd, Hp.
  now destruct (Z.eqb_spec pid 0).
Qed.

(** X5. An input document from a registered connection whose player is
    there replaces that player's pending input by the document's
    direction, whatever value it is, and changes nothing else: the
    player keeps its position, color and score, every other player, the
    order of the players, the coins and the connections are as before. *)
Theorem input_message_sets_only_the_input
    (g : GameServer) (ws : websocket) (data ty d : json num)
    (pid : Z) (p : Player) :
  dict_get Nat.eqb (clients g) ws = Some pid -> pid <> 0 ->
  dict_get Z.eqb (players g) pid = Some p ->
  get_item data "type" = Some ty -> is_str ty "input" = true ->
  get_item data "direction" = Some d ->
  let g' := apply_message g ws (Some data) in
  dict_get Z.eqb (players g') pid =
    Some {| x := x p; y := y p; color := color p; score := score p; input := d |} /\
  (forall pid', pid' <> pid ->
     dict_get Z.eqb (players g') pid' = dict_get Z.eqb (players g) pid') /\
  keys (players g') = keys (players g) /\
  coins g' = coins g /\ coin_counter g' = coin_counter g /\
  clients g' = clients g /\ next_player_id g' = next_player_id g /\
  last_coin_spawn g' = last_coin_spawn g.
Proof.
  intros Hws Hpid Hp Hty Hin Hd g'. unfold g'.
  erewrite apply_message_input by eassumption.
  cbn [players coins coin_counter clients next_player_id last_coin_spawn set_players].
  split; [apply (get_set_same Z.eqb Z.eqb_eq) | ].
  split; [intros pid' Hne; now apply (get_set_other Z.eqb Z.eqb_eq) | ].
  split; [now apply keys_set_present with (v' := p) | ].
  repeat split.
Qed.

Lemma set_set (d : dict Z Player) (k : Z) (v1 v2 : Player) :
  dict_set Z.eqb (dict_set Z.eqb d k v1) k v2 = dict_set Z.eqb d k v2.
Proof.
  induction d as [ | [k0 v0] d IH]; cbn.
  - now rewrite Z.eqb_refl.
  - destruct (Z.eqb k k0) eqn:E; cbn; rewrite E; [reflexivity | now rewrite IH].
Qed.

(** X6. The document the client sends for the direction it holds, once
    [handle_client_message] has applied it for a registered connection,
    makes that direction (or none) the pending input of the
    connection's player; a second document replaces the first without a
    trace: the server keeps the last intent only. *)
Theorem held_direction_reaches_the_server
    (g : GameServer) (ws : websocket) (pid : Z) (p : Player)
    (first second : option string) :
  dict_get Nat.eqb (clients g) ws = Some pid -> pid <> 0 ->
  dict_get Z.eqb (players g) pid = Some p ->
  let sent d := Some (Client.input_message d) in
  let intent d := match d with Some s => JStr s | None => JNull end in
  dict_get Z.eqb (players (apply_message g ws (sent first))) pid =
    Some (set_input p (intent first)) /\
  apply_message (apply_message g ws (sent first)) ws (sent second) =
    apply_message g ws (sent second).
Proof.
  intros Hws Hpid Hp sent intent.
  assert (Hone : forall (g0 : GameServer) (p0 : Player) (d0 : option string),
             dict_get Nat.eqb (clients g0) ws = Some pid ->
             dict_get Z.eqb (players g0) pid = Some p0 ->
             apply_message g0 ws (sent d0) =
             set_players g0 (dict_set Z.eqb (players g0) pid (set_input p0 (intent d0)))).
  { intros g0 p0 d0 Hws0 Hp0.
    apply apply_message_input with (ty := JStr "input"); auto. }
  rewrite (Hone g p first Hws Hp). cbn [players set_players].
  split; [apply (get_set_same Z.eqb Z.eqb_eq) | ].
  rewrite (Hone _ (set_input p (intent first)) second);
    [ | exact Hws | apply (get_set_same Z.eqb Z.eqb_eq)].
  rewrite (Hone g p second Hws Hp).
  cbn [players set_players]. rewrite set_set. now destruct g.
Qed.

(** X7. On any reached state, a message of a connection that has left
    in the meantime is dropped without effect: once [unregister] has
    run, [handle_client_message] for that connection changes nothing. *)
Theorem message_after_leaving_is_dropped
    (now1 now2 clock0 : num) (events : list event)
    (ws : websocket) (message : option (json num)) :
  let g := game (run (boot now1 now2 clock0) events) in
  apply_message (unregister g ws) ws message = unregister g ws.
Proof.
  intros g.
  destruct (wf_clients_reachable now1 now2 clock0 events) as (Hcd & _).
  fold g in Hcd.
  assert (Hgone : dict_get Nat.eqb (clients (unregister g ws)) ws = None).
  { unfold unregister.
    destruct (dict_get Nat.eqb (clients g) ws) as [pid | ] eqn:Hget; [ | exact Hget].
    destruct (pid =? 0); cbn [clients set_clients set_players];
      now apply get_pop_same; [apply Nat.eqb_eq | ]. }
  unfold apply_message. rewrite Hgone. now destruct message.
Qed.
End Messages.

(** ** More on one tick *)

Section TickMore.
Context {num : Type} `{PyNum num} `{PyMath num} `{LoopClock num}.
Import Server.
Local Abbreviation Player := (@Player num).
Local Abbreviation GameServer := (@GameServer num).
Local Abbreviation EventLoop := (@EventLoop num).

Lemma settle_keeps (dt : num) (p : Player) (cs : list Coin) :
  color (settle dt p cs) = color p /\
  input (settle dt p cs) = input p /\
  score p <= score (settle dt p cs).
Proof.
  unfold settle, placed, clamp_walls, move.
  repeat match goal with |- context [if ?b then _ else _] => destruct b end;
    cbn [x y color score input set_x set_y set_score]; repeat split; lia.
Qed.

Lemma sweep_In (dt : num) (ps : dict Z Player) :
  forall (cs : list Coin) (pid : Z) (p' : Player),
    In (pid, p') (fst (sweep dt ps cs)) ->
    exists p cs', In (pid, p) ps /\ p' = settle dt p cs'.
Proof.
  induction ps as [ | [pid0 p0] rest IH]; intros cs pid p' Hin; [destruct Hin | ].
  cbn [sweep] in Hin. specialize (IH (leftover dt p0 cs) pid p').
  destruct (sweep dt rest (leftover dt p0 cs)) as [rest' cs'].
  cbn [fst] in *. destruct Hin as [[= <- <-] | Hin].
  - exists p0, cs. split; [now left | reflexivity].
  - destruct (IH Hin) as [p [cs'' [Hp Heq]]]. exists p, cs''. split; [now right | exact Heq].
Qed.

(** X8. On any state the server has reached, [update] returns: the
    lookup of a player in its loop never fails.  The tick keeps the
    players it found, in their order, each with its color and its
    pending input and with a score that has not gone down; the
    connections and the identity counter are untouched. *)
Theorem update_keeps_the_roster
    (now1 now2 clock0 : num) (events : list event)
    (now dt : num) (rx ry : Z) :
  let g := game (run (boot now1 now2 clock0) events) in
  exists g',
    update g now dt rx ry = Some g' /\
    keys (players g') = keys (players g) /\
    clients g' = clients g /\
    next_player_id g' = next_player_id g /\
    forall pid p,
      dict_get Z.eqb (players g) pid = Some p ->
      exists p',
        dict_get Z.eqb (players g') pid = Some p' /\
        color p' = color p /\ input p' = input p /\ score p <= score p'.
Proof.
  intros g.
  destruct (wf_reachable now1 now2 clock0 events) as (Hnd & _). fold g in Hnd.
  destruct (Nat.lt_ge_cases (List.length (players g)) 2) as [Hlt | Hge].
  - exists g. split; [now apply update_lobby | ]. repeat split.
    intros pid p Hget. exists p. repeat split; [exact Hget | lia].
  - eexists. split; [now apply update_playing | ].
    cbn [players clients next_player_id set_players set_coins].
    split; [apply sweep_keys | ].
    split; [unfold spawned; now destruct (gtb _ _) | ].
    split; [unfold spawned; now destruct (gtb _ _) | ].
    intros pid p Hget.
    apply dict_get_In, In_nth_error in Hget. destruct Hget as [i Hi].
    pose proof (sweep_nth dt (players g) (coins (spawned g now rx ry)) i Hi) as Hnth.
    eexists. split.
    + apply In_dict_get; [now rewrite sweep_keys | ].
      eapply nth_error_In. exact Hnth.
    + apply settle_keeps.
Qed.

Lemma apply_message_shape (g : GameServer) (ws : websocket)
    (message : option (json num)) :
  apply_message g ws message = g \/
  exists pid p d,
    dict_get Z.eqb (players g) pid = Some p /\
    apply_message g ws message =
    set_players g (dict_set Z.eqb (players g) pid (set_input p d)).
Proof.
  unfold apply_message.
  destruct message as [data | ]; [ | now left].
  destruct (dict_get Nat.eqb (clients g) ws) as [pid | ]; [ | now left].
  destruct (pid =? 0); [now left | ].
  destruct (get_item data "type") as [ty | ]; [ | now left].
  destruct (is_str ty "input"); [ | now left].
  destruct (get_item data "direction") as [d | ]; [ | now left].
  destruct (dict_get Z.eqb (players g) pid) as [p | ] eqn:Hp; [ | now left].
  right. now exists pid, p, d.
Qed.

Lemma keeps_step (l : EventLoop) (e : event) (pid : Z) (c : Z * Z * Z) (s : Z) :
  wf (game l) -> keeps pid c s (game l) -> keeps pid c s (game (step l e)).
Proof.
  intros Hwf [Hid Hk].
  destruct e as [ws rx ry cr cg cb | ws m | i | ws | now dt rx ry | time];
    cbn [step].
  - unfold keeps, register.
    cbn [set_game game fst players next_player_id
         set_players set_clients set_next_player_id].
    split; [lia | ]. intros p Hin.
    apply (In_set Z.eqb Z.eqb_eq) in Hin. destruct Hin as [[Heq _] | Hin];
      [lia | now apply Hk].
  - now split.
  - unfold resume. destruct (nth_error (sleeping l) i) as [sl | ]; [ | now split].
    destruct (clock l + clock_resolution <=? wake sl)%py; [now split | ].
    cbn [game].
    destruct (apply_message_shape (game l) (sleeper_ws sl) (sleeper_message sl))
      as [-> | [pid0 [p0 [d [Hp0 ->]]]]]; [now split | ].
    unfold keeps. cbn [players next_player_id set_players].
    split; [exact Hid | ]. intros p Hin.
    apply (In_set Z.eqb Z.eqb_eq) in Hin. destruct Hin as [[-> ->] | Hin];
      [ | now apply Hk].
    apply dict_get_In in Hp0. now apply Hk in Hp0.
  - cbn [set_game game]. unfold unregister.
    destruct (dict_get Nat.eqb (clients (game l)) ws) as [pid0 | ]; [ | now split].
    destruct (pid0 =? 0); unfold keeps;
      cbn [players next_player_id set_players set_clients];
      (split; [exact Hid | ]); [exact Hk | ].
    intros p Hin. apply In_pop in Hin. now apply Hk.
  - destruct (update (game l) now dt rx ry) as [g | ] eqn:Hup; [ | now split].
    cbn [set_game game].
    destruct (Nat.lt_ge_cases (List.length (players (game l))) 2) as [Hlt | Hge].
    + rewrite update_lobby in Hup by exact Hlt. injection Hup as <-. now split.
    + rewrite update_playing in Hup by (try exact Hge; apply Hwf).
      injection Hup as <-. unfold keeps.
      cbn [players next_player_id set_players set_coins].
      split; [unfold spawned; now destruct (gtb _ _) | ].
      intros p' Hin. apply sweep_In in Hin. destruct Hin as [p [cs' [Hp ->]]].
      destruct (settle_keeps dt p cs') as (Hc & _ & Hs).
      destruct (Hk p Hp) as [Hc0 Hs0]. split; [congruence | lia].
  - destruct (clock l <=? time)%py; now split.
Qed.

Lemma keeps_run (events : list event) (pid : Z) (c : Z * Z * Z) (s : Z) :
  forall l : EventLoop,
    wf (game l) -> keeps pid c s (game l) -> keeps pid c s (game (run l events)).
Proof.
  induction events as [ | e events IH]; intros l Hwf Hk; [exact Hk | ].
  cbn. apply IH; [now apply wf_step | now apply keeps_step].
Qed.

(** X9. A player that is registered at some point of a run of the
    server and is found under the same identity at a later point has
    the color it had and a score that is at least what it was: the
    color is given once, scores never go down, and no identity is handed
    out a second time. *)
Theorem color_stays_and_score_grows
    (now1 now2 clock0 : num) (before after : list event)
    (pid : Z) (p p' : Player) :
  let l := run (boot now1 now2 clock0) before in
  dict_get Z.eqb (players (game l)) pid = Some p ->
  dict_get Z.eqb (players (game (run l after))) pid = Some p' ->
  color p' = color p /\ score p <= score p'.
Proof.
  intros l Hp Hp'.
  destruct (wf_reachable now1 now2 clock0 before) as (Hnd & Hlt & Hrest).
  fold l in Hnd, Hlt.
  assert (Hk : keeps pid (color p) (score p) (game l)).
  { split.
    - apply Hlt. apply dict_get_In in Hp. apply in_map_iff. now exists (pid, p).
    - intros q Hq. apply (In_dict_get _ _ _ Hnd) in Hq.
      assert (q = p) as -> by congruence. split; [reflexivity | lia]. }
  apply (keeps_run after) in Hk; [ | apply wf_reachable].
  apply dict_get_In in Hp'. now apply Hk in Hp'.
Qed.
End TickMore.

Section CoinsMore.
Context {num : Type} `{PyNum num} `{PyMath num} `{LoopClock num}.
Import Server.
Local Abbreviation Player := (@Player num).
Local Abbreviation GameServer := (@GameServer num).

(** X12. [check_collisions] fails, with the [KeyError] of its lookup, on
    an identity that no player has.  On the identity of a player it
    returns; it changes no other player and not the order of the
    players, it leaves the player's color and input alone, it removes
    coins only, and the player's score grows by exactly the number of
    coins that are gone. *)
Theorem check_collisions_pays_for_each_coin (g : GameServer) (pid : Z) :
  (dict_get Z.eqb (players g) pid = None -> check_collisions g pid = None) /\
  (forall p,
      dict_get Z.eqb (players g) pid = Some p ->
      exists g' p',
        check_collisions g pid = Some g' /\
        dict_get Z.eqb (players g') pid = Some p' /\
        color p' = color p /\ input p' = input p /\
        score p' =
          score p + (Z.of_nat (List.length (coins g)) - Z.of_nat (List.length (coins g'))) /\
        (forall c, In c (coins g') -> In c (coins g)) /\
        keys (players g') = keys (players g) /\
        (forall pid', pid' <> pid ->
           dict_get Z.eqb (players g') pid' = dict_get Z.eqb (players g) pid')).
Proof.
  split.
  - intros Hnone. unfold check_collisions. now rewrite Hnone.
  - intros p Hget. do 2 eexists.
    split; [apply check_collisions_found; exact Hget | ].
    cbn [players coins set_players set_coins].
    split; [apply (get_set_same Z.eqb Z.eqb_eq) | ].
    cbn [color input score set_score clamp_walls set_x set_y].
    split; [reflexivity | ]. split; [reflexivity | ].
    split.
    { pose proof (filter_length_split (touches (clamp_walls p)) (coins g)). lia. }
    split; [intros c Hc; apply filter_In in Hc; tauto | ].
    split; [now apply keys_set_present with (v' := p) | ].
    intros pid' Hne. now apply (get_set_other Z.eqb Z.eqb_eq).
Qed.

(** X11. On any reached state a tick spawns at most one coin, and it
    does so exactly when at least two players are registered and more
    than [COIN_SPAWN_RATE] has passed since the last spawn: then the
    coin counter goes up by one, the spawn clock is set to the time of
    the tick, and the only coin that can be new has the old counter as
    its identity and the drawn position.  Otherwise the counter and the
    spawn clock stay and no coin is new: a server in the lobby does not
    run its spawn clock. *)
Theorem one_coin_at_most_per_tick
    (now1 now2 clock0 : num) (events : list event)
    (now dt : num) (rx ry : Z) :
  let g := game (run (boot now1 now2 clock0) events) in
  let due := (2 <=? List.length (players g))%nat &&
             gtb (now - last_coin_spawn g)%py COIN_SPAWN_RATE in
  exists g',
    update g now dt rx ry = Some g' /\
    (due = true ->
     coin_counter g' = coin_counter g + 1 /\
     last_coin_spawn g' = now /\
     forall c, In c (coins g') ->
       In c (coins g) \/
       c = {| coin_id := coin_counter g; coin_x := rx; coin_y := ry |}) /\
    (due = false ->
     coin_counter g' = coin_counter g /\
     last_coin_spawn g' = last_coin_spawn g /\
     forall c, In c (coins g') -> In c (coins g)).
Proof.
  intros g due.
  destruct (wf_reachable now1 now2 clock0 events) as (Hnd & _). fold g in Hnd.
  destruct (Nat.lt_ge_cases (List.length (players g)) 2) as [Hlt | Hge].
  - exists g. split; [now apply update_lobby | ].
    assert (Hdue : due = false).
    { unfold due. destruct (Nat.leb_spec 2 (List.length (players g))); [lia | reflexivity]. }
    rewrite Hdue. split; [discriminate | ]. intros _. now repeat split.
  - eexists. split; [now apply update_playing | ].
    cbn [coins coin_counter last_coin_spawn set_players set_coins].
    rewrite sweep_coins. unfold due, spawned.
    destruct (Nat.leb_spec 2 (List.length (players g))) as [_ | Hbad]; [ | lia].
    cbn [andb]. destruct (gtb (now - last_coin_spawn g)%py COIN_SPAWN_RATE).
    + split; [ | discriminate]. intros _.
      cbn [coins coin_counter last_coin_spawn set_coins set_coin_counter
           set_last_coin_spawn spawn_coin].
      repeat split. intros c Hc. apply filter_In in Hc. destruct Hc as [Hc _].
      apply in_app_or in Hc. destruct Hc as [Hc | [<- | []]]; [now left | now right].
    + split; [discriminate | ]. intros _. repeat split.
      intros c Hc. apply filter_In in Hc. tauto.
Qed.

(** X13. [broadcast_state] hands over no message exactly when no
    connection is registered.  A message carries the time it was given
    and the coins of the state in their order, each with its id, x and
    y; its status is WAITING_FOR_PLAYERS when fewer than two players are
    registered and PLAYING otherwise; and whenever clients are told
    WAITING_FOR_PLAYERS, [update] on that state changes nothing, for any
    time and draws. *)
Theorem broadcast_reports_the_lobby (g : GameServer) (now : num) :
  (broadcast_state g now = None <-> clients g = []) /\
  forall message,
    broadcast_state g now = Some message ->
    get_item message "t" = Some (JFloat now) /\
    get_item message "coins" =
      Some (JList (map (fun c => JDict [("id", JInt (coin_id c));
                                        ("x", JInt (coin_x c));
                                        ("y", JInt (coin_y c))]) (coins g))) /\
    get_item message "status" =
      Some (JStr (if (List.length (players g) <? 2)%nat
                  then "WAITING_FOR_PLAYERS" else "PLAYING")) /\
    (get_item message "status" = Some (JStr "WAITING_FOR_PLAYERS") ->
     forall now' dt rx ry, update g now' dt rx ry = Some g).
Proof.
  unfold broadcast_state. split.
  - destruct (clients g); split; intros Heq; try reflexivity; discriminate.
  - intros message Hsome. destruct (clients g) as [ | c cl]; [discriminate | ].
    injection Hsome as <-. cbn [get_item String.eqb Ascii.eqb Bool.eqb].
    assert (Hst : (if 2 <=? Z.of_nat (List.length (players g))
                   then "PLAYING" else "WAITING_FOR_PLAYERS") =
                  (if (List.length (players g) <? 2)%nat
                   then "WAITING_FOR_PLAYERS" else "PLAYING")).
    { destruct (Z.leb_spec 2 (Z.of_nat (List.length (players g))));
        destruct (Nat.ltb_spec (List.length (players g)) 2); try reflexivity; lia. }
    rewrite Hst. repeat split.
    intros Hwait now' dt rx ry. apply update_lobby.
    destruct (Nat.ltb_spec (List.length (players g)) 2); [assumption | discriminate].
Qed.

(** X16. On any reached state [delayed_broadcast], once its sleep is
    over, sends the message once to each connection registered by then
    and to no one else: a connection that has left during the delay is
    not written to, and one that has joined during the delay receives
    the message although the snapshot was taken before it joined. *)
Theorem delayed_broadcast_goes_to_the_connected
    (now1 now2 clock0 : num) (events : list event)
    (message : json num) (ws : websocket) (rx ry cr cg cb : Z) :
  let g := game (run (boot now1 now2 clock0) events) in
  NoDup (map fst (delayed_broadcast g message)) /\
  (forall ws' m,
      In (ws', m) (delayed_broadcast g message) <->
      m = message /\ dict_get Nat.eqb (clients g) ws' <> None) /\
  ~ In ws (map fst (delayed_broadcast (unregister g ws) message)) /\
  In (ws, message) (delayed_broadcast (fst (register g ws rx ry cr cg cb)) message).
Proof.
  intros g.
  destruct (wf_clients_reachable now1 now2 clock0 events) as (Hcd & _).
  fold g in Hcd.
  assert (Hfst : forall g0 : GameServer,
             map fst (delayed_broadcast g0 message) = keys (clients g0)).
  { intros g0. unfold delayed_broadcast. rewrite map_map. cbn. apply map_id. }
  split; [now rewrite Hfst | ]. split; [ | split].
  - intros ws' m. unfold delayed_broadcast. rewrite in_map_iff. split.
    + intros [ws'' [[= <- <-] Hin]]. split; [reflexivity | ].
      intros Hnone. now apply (get_None_keys Nat.eqb Nat.eqb_eq) in Hnone.
    + intros [-> Hsome]. exists ws'. split; [reflexivity | ].
      destruct (in_dec Nat.eq_dec ws' (keys (clients g))) as [Hin | Hout];
        [exact Hin | ].
      now apply (get_None_keys Nat.eqb Nat.eqb_eq) in Hout.
  - rewrite Hfst. apply (get_None_keys Nat.eqb Nat.eqb_eq). unfold unregister.
    destruct (dict_get Nat.eqb (clients g) ws) as [pid | ] eqn:Hget; [ | exact Hget].
    destruct (pid =? 0); cbn [clients set_clients set_players];
      now apply get_pop_same; [apply Nat.eqb_eq | ].
  - unfold delayed_broadcast. apply in_map_iff. exists ws. split; [reflexivity | ].
    unfold register. cbn [fst clients set_clients set_players set_next_player_id].
    destruct (in_dec Nat.eq_dec ws
                (keys (dict_set Nat.eqb (clients g) ws (next_player_id g))))
      as [Hin | Hout]; [exact Hin | ].
    apply (get_None_keys Nat.eqb Nat.eqb_eq) in Hout.
    now rewrite (get_set_same Nat.eqb Nat.eqb_eq) in Hout.
Qed.
End CoinsMore.

(** ** The walls and the tick loop, in double precision *)

Section WallsDouble.
Context `{LoopClock float}.
Import Server.

Lemma spawn_spots_checked :
  forallb (fun n => SFleb (of_Z 20) (of_Z (Z.of_nat n)) &&
                    SFleb (of_Z (Z.of_nat n)) (of_Z 780)) (seq 100 601) &&
  forallb (fun n => SFleb (of_Z 20) (of_Z (Z.of_nat n)) &&
                    SFleb (of_Z (Z.of_nat n)) (of_Z 580)) (seq 100 401) = true.
Proof. vm_compute. reflexivity. Qed.

Lemma spawn_spot_inside (rx ry cr cg cb : Z) :
  100 <= rx <= 700 -> 100 <= ry <= 500 ->
  inside {| x := of_Z rx; y := of_Z ry; color := (cr, cg, cb);
            score := 0; input := JNull |}.
Proof.
  intros Hx Hy. pose proof spawn_spots_checked as Hc.
  apply andb_prop in Hc. destruct Hc as [Hcx Hcy].
  rewrite forallb_forall in Hcx, Hcy.
  specialize (Hcx (Z.to_nat rx)). specialize (Hcy (Z.to_nat ry)).
  rewrite Z2Nat.id in Hcx, Hcy by lia.
  assert (Hinx : In (Z.to_nat rx) (seq 100 601)) by (apply in_seq; lia).
  assert (Hiny : In (Z.to_nat ry) (seq 100 401)) by (apply in_seq; lia).
  apply Hcx, andb_prop in Hinx. apply Hcy, andb_prop in Hiny.
  unfold inside. cbn [x y leb binary64]. tauto.
Qed.

Lemma settle_inside (dt : float) (p : Player) (cs : list Coin) :
  inside (settle dt p cs).
Proof.
  unfold inside, settle. cbn [x y set_score].
  destruct (placed_xy dt p) as [-> ->].
  repeat split; apply clamp_bounds; reflexivity.
Qed.

Lemma inside_step (l : @EventLoop float) (e : event) :
  wf (game l) -> draws_in_range e ->
  (forall pid p, In (pid, p) (players (game l)) -> inside p) ->
  forall pid p, In (pid, p) (players (game (step l e))) -> inside p.
Proof.
  intros Hwf Hdraw Hin pid p.
  destruct e as [ws rx ry cr cg cb | ws m | i | ws | now dt rx ry | time];
    cbn [step].
  - unfold register.
    cbn [set_game game fst players set_players set_clients set_next_player_id].
    intros Hp. apply (In_set Z.eqb Z.eqb_eq) in Hp.
    destruct Hp as [[_ ->] | Hp]; [ | now apply (Hin pid)].
    destruct Hdraw. now apply spawn_spot_inside.
  - apply Hin.
  - unfold resume. destruct (nth_error (sleeping l) i) as [sl | ]; [ | apply Hin].
    destruct (clock l + clock_resolution <=? wake sl)%py; [apply Hin | ].
    cbn [game].
    destruct (apply_message_shape (game l) (sleeper_ws sl) (sleeper_message sl))
      as [-> | [pid0 [p0 [d [Hp0 ->]]]]]; [apply Hin | ].
    cbn [players set_players]. intros Hp. apply (In_set Z.eqb Z.eqb_eq) in Hp.
    destruct Hp as [[-> ->] | Hp]; [ | now apply (Hin pid)].
    apply dict_get_In, Hin in Hp0. exact Hp0.
  - cbn [set_game game]. unfold unregister.
    destruct (dict_get Nat.eqb (clients (game l)) ws) as [pid0 | ]; [ | apply Hin].
    destruct (pid0 =? 0); cbn [players set_players set_clients]; [apply Hin | ].
    intros Hp. apply In_pop in Hp. now apply (Hin pid).
  - destruct (update (game l) now dt rx ry) as [g | ] eqn:Hup; [ | apply Hin].
    cbn [set_game game].
    destruct (Nat.lt_ge_cases (List.length (players (game l))) 2) as [Hlt | Hge].
    + rewrite update_lobby in Hup by exact Hlt. injection Hup as <-. apply Hin.
    + rewrite update_playing in Hup by (try exact Hge; apply Hwf).
      injection Hup as <-. cbn [players set_players set_coins].
      intros Hp. apply sweep_In in Hp. destruct Hp as [p0 [cs' [_ ->]]].
      apply settle_inside.
  - destruct (clock l <=? time)%py; apply Hin.
Qed.

Lemma inside_run (events : list event) :
  forall l : @EventLoop float,
    wf (game l) -> Forall (@draws_in_range float) events ->
    (forall pid p, In (pid, p) (players (game l)) -> inside p) ->
    forall pid p, In (pid, p) (players (game (run l events))) -> inside p.
Proof.
  induction events as [ | e events IH]; intros l Hwf Hdraws Hin; [exact Hin | ].
  inversion Hdraws as [ | ? ? Hd Hds]; subst. cbn.
  apply IH; [now apply wf_step | exact Hds | now apply inside_step].
Qed.

(** X14. In double precision, as long as the positions drawn at
    [register] are such as [random.randint(100, 700)] and
    [random.randint(100, 500)] return, every player of every state the
    server reaches stands inside the walls: its x lies in
    [[PLAYER_SIZE, MAP_WIDTH - PLAYER_SIZE]] and its y in
    [[PLAYER_SIZE, MAP_HEIGHT - PLAYER_SIZE]], whatever the time steps,
    the messages and the order of the events are. *)
Theorem players_stay_inside_the_walls
    (now1 now2 clock0 : float) (events : list event) (pid : Z) (p : Player) :
  Forall (@draws_in_range float) events ->
  In (pid, p) (players (game (run (boot now1 now2 clock0) events))) ->
  inside p.
Proof.
  intros Hdraws. apply inside_run; [apply wf_init | exact Hdraws | ].
  intros pid' p' [].
Qed.

(** X15. In double precision, a turn of [game_loop] on any reached state
    goes through: it runs [update] with the time since the last turn as
    the step, broadcasts the state that [update] returned, not the one
    before, and sleeps for a time that is never negative, whatever the
    clock readings are, and that is 0 when a sixtieth of a second minus
    the time the turn took is not positive. *)
Theorem game_loop_turn_sleeps_no_negative_time
    (now1 now2 clock0 : float) (events : list event)
    (last_time current_time now stamp end_time : float) (rx ry : Z) :
  let g := game (run (boot now1 now2 clock0) events) in
  exists g' sleep_time,
    game_loop_turn g last_time current_time now stamp end_time rx ry =
      Some (g', broadcast_state g' stamp, sleep_time, current_time) /\
    update g now (current_time - last_time)%py rx ry = Some g' /\
    (of_Z 0 <=? sleep_time)%py = true /\
    ((of_Z 0 <? (of_Z 1 / of_Z TICK_RATE) - (end_time - current_time))%py = false ->
     sleep_time = of_Z 0).
Proof.
  intros g.
  destruct (wf_reachable now1 now2 clock0 events) as (Hnd & _). fold g in Hnd.
  assert (Hsome : exists g', update g now (current_time - last_time)%py rx ry = Some g').
  { destruct (Nat.lt_ge_cases (List.length (players g)) 2) as [Hlt | Hge].
    - exists g. now apply update_lobby.
    - eexists. now apply update_playing. }
  destruct Hsome as [g' Hup]. unfold game_loop_turn. rewrite Hup.
  do 2 eexists. split; [reflexivity | ]. split; [reflexivity | ].
  unfold py_max, gtb. cbn [ltb leb binary64].
  destruct (SFltb _ _) eqn:E.
  - split; [now apply SFltb_SFleb | discriminate].
  - split; reflexivity.
Qed.
End WallsDouble.

(** ** More on the client *)

Section ClientMore.
Context {num : Type} `{PyNum num}.
Import Client.
Local Abbreviation GameClient := (@GameClient num).
Local Abbreviation Snapshot := (@Snapshot num).

Lemma trim_fixed (render_time : num) (buffer : list Snapshot) :
  trim render_time (trim render_time buffer) = trim render_time buffer.
Proof.
  induction buffer as [ | s0 rest IH]; [reflexivity | ].
  destruct rest as [ | s1 [ | s2 tl]]; try reflexivity.
  cbn [trim]. destruct (recv_time s1 <? render_time)%py eqn:E.
  - exact IH.
  - cbn [trim]. now rewrite E.
Qed.

Lemma get_render_state_client (now : num) (c : GameClient) :
  snd (get_render_state now c) =
  set_state_buffer c (trim (now - INTERPOLATION_OFFSET)%py (state_buffer c)).
Proof.
  unfold get_render_state.
  destruct (trim _ _) as [ | s [ | s' l]]; reflexivity.
Qed.

(** X17. Rendering again at the same instant gives the same players,
    coins and status and leaves the buffer as the first rendering left
    it: the trimming has nothing more to drop. *)
Theorem rendering_twice_is_rendering_once (now : num) (c : GameClient) :
  get_render_state now (snd (get_render_state now c)) =
  (fst (get_render_state now c), snd (get_render_state now c)).
Proof.
  rewrite get_render_state_client. unfold get_render_state.
  cbn [state_buffer set_state_buffer my_id connected current_input last_input_sent].
  rewrite trim_fixed.
  destruct (trim _ _) as [ | s [ | s' l]]; reflexivity.
Qed.

(** X18. With at least two entries buffered, the render state has one
    entry for each player of [next], under the same identities in the
    same order, and none for a player that only [prev] has; a player
    that [prev] does not have is returned as [next] has it, untouched;
    an interpolated entry has the keys x, y, color and score only; the
    coins and the status are those of [next]. *)
Theorem new_player_pops_in (now : num) (c : GameClient) :
  (2 <= List.length (state_buffer c))%nat ->
  exists prev next rest,
    state_buffer (snd (get_render_state now c)) = prev :: next :: rest /\
    let '(rendered, coins_, status_) := fst (get_render_state now c) in
    keys rendered = keys (players next) /\
    (forall pid p_next,
        In (pid, p_next) (players next) ->
        dict_get String.eqb (players prev) pid = None ->
        In (pid, p_next) rendered) /\
    (forall pid p,
        In (pid, p) rendered ->
        dict_get String.eqb (players prev) pid <> None ->
        input p = None) /\
    coins_ = coins next /\ status_ = status next.
Proof.
  intros Hlen.
  destruct (trim_two (now - INTERPOLATION_OFFSET)%py (state_buffer c) Hlen)
    as [prev [next [rest Htrim]]].
  exists prev, next, rest.
  split; [now rewrite get_render_state_buffer | ].
  rewrite (get_render_state_two now c Htrim).
  split; [ | split; [ | split; [ | split; reflexivity]]].
  - unfold keys. rewrite map_map. apply map_ext. now intros [pid p].
  - intros pid p_next Hin Hnone. apply in_map_iff. exists (pid, p_next).
    split; [ | exact Hin]. unfold interpolate_player. now rewrite Hnone.
  - intros pid p Hin Hsome. apply rendered_entry in Hin.
    destruct Hin as [p_next [_ ->]]. unfold interpolate_player.
    destruct (dict_get String.eqb (players prev) pid); [reflexivity | congruence].
Qed.

Lemma direction_differs_false (a b : option string) :
  direction_differs a b = false <-> a = b.
Proof.
  destruct a as [s | ], b as [s' | ]; cbn; try (split; congruence).
  destruct (String.eqb_spec s s'); cbn; split; congruence.
Qed.

(** X22. In a turn of [network_loop] the direction is UP when w or the
    up arrow is held, whatever else is held; otherwise DOWN when s or
    the down arrow is held; otherwise LEFT when a or the left arrow is
    held; otherwise RIGHT when d or the right arrow is held; and none
    exactly when none of the eight keys is held.  A message is sent if
    and only
    if that direction differs from the one sent last; it carries the
    direction; afterwards the client remembers the direction, so that
    the same keys held for another turn send nothing.  The buffer is
    not touched. *)
Theorem input_is_sent_on_change_only (c : GameClient) (keys : Keys) :
  let direction := held_direction keys in
  let c' := fst (send_input c keys) in
  let sent := snd (send_input c keys) in
  (K_w keys || K_UP keys = true -> direction = Some "UP") /\
  (K_w keys || K_UP keys = false -> K_s keys || K_DOWN keys = true ->
   direction = Some "DOWN") /\
  (K_w keys || K_UP keys = false -> K_s keys || K_DOWN keys = false ->
   K_a keys || K_LEFT keys = true -> direction = Some "LEFT") /\
  (K_w keys || K_UP keys = false -> K_s keys || K_DOWN keys = false ->
   K_a keys || K_LEFT keys = false -> K_d keys || K_RIGHT keys = true ->
   direction = Some "RIGHT") /\
  (direction = None <->
   K_w keys || K_UP keys || K_s keys || K_DOWN keys ||
   K_a keys || K_LEFT keys || K_d keys || K_RIGHT keys = false) /\
  (sent = None <-> direction = current_input c) /\
  (sent <> None -> sent = Some (input_message direction)) /\
  current_input c' = direction /\
  snd (send_input c' keys) = None /\
  state_buffer c' = state_buffer c.
Proof.
  intros direction c' sent. unfold c', sent, send_input. fold direction.
  split; [unfold direction, held_direction; now intros -> | ].
  split; [unfold direction, held_direction; now intros -> -> | ].
  split; [unfold direction, held_direction; now intros -> -> -> | ].
  split; [unfold direction, held_direction; now intros -> -> -> -> | ].
  split.
  { unfold direction, held_direction.
    destruct (K_w keys || K_UP keys); cbn; [split; discriminate | ].
    destruct (K_s keys || K_DOWN keys); cbn; [split; discriminate | ].
    destruct (K_a keys || K_LEFT keys); cbn; [split; discriminate | ].
    destruct (K_d keys || K_RIGHT keys); cbn; split; congruence. }
  destruct (direction_differs direction (current_input c)) eqn:E; cbn [fst snd].
  - assert (Hne : direction <> current_input c).
    { intros Heq. apply direction_differs_false in Heq. congruence. }
    split; [split; [discriminate | contradiction] | ].
    split; [reflexivity | ]. split; [reflexivity | ].
    cbn [current_input set_current_input state_buffer].
    assert (Hsame : direction_differs direction direction = false)
      by now apply direction_differs_false.
    rewrite Hsame. now split.
  - apply direction_differs_false in E.
    split; [split; [intros _; exact E | reflexivity] | ].
    split; [congruence | ]. split; [now symmetry | ].
    assert (Hsame : direction_differs direction (current_input c) = false)
      by now apply direction_differs_false.
    rewrite Hsame. now split.
Qed.
End ClientMore.

(** ** The receive loop and the wire *)

Section Receiving.
Context {num : Type} `{PyNum num}.
Import Client.
Local Abbreviation Inbox := (@Inbox num).

Lemma hang_up_closed (r : Inbox) : listening r = false -> hang_up r = r.
Proof. destruct r. cbn. now intros ->. Qed.

Lemma receive_closed (r : Inbox) (now : num) (message : option (json num)) :
  listening r = false -> receive r now message = r.
Proof. intros Hc. unfold receive. now rewrite Hc. Qed.

Lemma receive_handler_closed (messages : list (num * option (json num))) :
  forall r : Inbox, listening r = false -> receive_handler r messages = r.
Proof.
  induction messages as [ | m messages IH]; intros r Hc; [reflexivity | ].
  cbn. rewrite receive_closed by exact Hc. now apply IH.
Qed.

Lemma has_key_get (l : list (string * json num)) (k : string) :
  existsb (fun e => String.eqb k (fst e)) l = true <->
  get_item (JDict l) k <> None.
Proof.
  cbn. induction l as [ | [k0 v0] l IH]; cbn; [split; congruence | ].
  destruct (String.eqb k k0); cbn; [split; congruence | exact IH].
Qed.

(** X20. An exception ends [receive_handler] for good.  A text that
    does not decode, or that decodes to null, a boolean or a number,
    raises; from then on no message is read: whatever follows on the
    connection, the identity and the buffer stay as they were at the
    failure, so the client renders from a buffer that no longer grows. *)
Theorem receive_handler_stops_at_a_failure
    (r : Inbox) (now : num) (rest : list (num * option (json num)))
    (b : bool) (z : Z) (f : num) :
  let stopped := receive_handler (hang_up r) rest in
  receive_handler r ((now, None) :: rest) = stopped /\
  receive_handler r ((now, Some JNull) :: rest) = stopped /\
  receive_handler r ((now, Some (JBool b)) :: rest) = stopped /\
  receive_handler r ((now, Some (JInt z)) :: rest) = stopped /\
  receive_handler r ((now, Some (JFloat f)) :: rest) = stopped /\
  stopped = hang_up r /\
  assigned_id stopped = assigned_id r /\
  received stopped = received r.
Proof.
  intros stopped.
  assert (Hstep : forall m, (m = None \/ m = Some JNull \/ m = Some (JBool b) \/
                             m = Some (JInt z) \/ m = Some (JFloat f)) ->
                            receive r now m = hang_up r).
  { intros m Hm. unfold receive.
    destruct (listening r) eqn:El; cbn [negb].
    - destruct Hm as [-> | [-> | [-> | [-> | ->]]]]; reflexivity.
    - symmetry. now apply hang_up_closed. }
  assert (Hstop : stopped = hang_up r)
    by (apply receive_handler_closed; reflexivity).
  unfold receive_handler in *. cbn [fold_left fst snd].
  repeat (split; [rewrite Hstep by tauto; reflexivity | ]).
  split; [exact Hstop | ]. rewrite Hstop. split; reflexivity.
Qed.

(** X19. While [receive_handler] is listening, a document whose type is
    init and that has an id sets the identity of the client to that id
    and is not buffered; a document that is not a handshake and has the
    key players is stamped with the receipt time under recv_time and
    appended at the end of the buffer, the identity staying; a document
    that is neither is skipped.  In each case the handler goes on
    listening. *)
Theorem receive_sorts_the_documents
    (r : Inbox) (now : num) (l : list (string * json num)) :
  listening r = true ->
  (forall id,
      get_item (JDict l) "type" = Some (JStr "init") ->
      get_item (JDict l) "id" = Some id ->
      receive r now (Some (JDict l)) =
      {| assigned_id := Some id; received := received r; listening := true |}) /\
  ((forall ty, get_item (JDict l) "type" = Some ty -> is_str ty "init" = false) ->
   get_item (JDict l) "players" <> None ->
   receive r now (Some (JDict l)) =
   {| assigned_id := assigned_id r;
      received := received r ++
                  [JDict (dict_set String.eqb l "recv_time" (JFloat now))];
      listening := true |}) /\
  ((forall ty, get_item (JDict l) "type" = Some ty -> is_str ty "init" = false) ->
   get_item (JDict l) "players" = None ->
   receive r now (Some (JDict l)) = r).
Proof.
  intros Hl. unfold receive. rewrite Hl. cbn [negb contains set_item].
  split; [ | split].
  - intros id Hty Hid.
    assert (Hk : existsb (fun e => String.eqb "type" (fst e)) l = true)
      by (apply has_key_get; congruence).
    rewrite Hk, Hty, Hid. reflexivity.
  - intros Hty Hp. apply has_key_get in Hp.
    destruct (existsb (fun e => String.eqb "type" (fst e)) l) eqn:Hk.
    + destruct (get_item (JDict l) "type") as [ty | ] eqn:Hg.
      * rewrite (Hty ty eq_refl), Hp. reflexivity.
      * apply has_key_get in Hk. congruence.
    + rewrite Hp. reflexivity.
  - intros Hty Hp.
    assert (Hk' : existsb (fun e => String.eqb "players" (fst e)) l = false).
    { destruct (existsb (fun e => String.eqb "players" (fst e)) l) eqn:E;
        [ | reflexivity].
      apply has_key_get in E. congruence. }
    destruct (existsb (fun e => String.eqb "type" (fst e)) l) eqn:Hk.
    + destruct (get_item (JDict l) "type") as [ty | ] eqn:Hg.
      * rewrite (Hty ty eq_refl), Hk'. destruct r; cbn in *. now subst.
      * apply has_key_get in Hk. congruence.
    + rewrite Hk'. destruct r; cbn in *. now subst.
Qed.
End Receiving.

Section Wire.
Context {num : Type} `{PyNum num} `{PyMath num} `{LoopClock num}.
Import Client.

Lemma all_some_map (A B : Type) (f : A -> option B) (g : A -> B) (l : list A) :
  (forall a, f a = Some (g a)) -> all_some (map f l) = Some (map g l).
Proof.
  intros Hf. induction l as [ | a l IH]; [reflexivity | ].
  cbn. now rewrite Hf, IH.
Qed.

Lemma all_some_Forall2 (A B C : Type) (R : A -> B -> Prop)
    (f : B -> option C) (h : A -> C) (l : list A) (entries : list B) :
  (forall a b, R a b -> f b = Some (h a)) ->
  Forall2 R l entries -> all_some (map f entries) = Some (map h l).
Proof.
  intros Hf HR. induction HR as [ | a b l entries Hab _ IH]; [reflexivity | ].
  cbn. now rewrite (Hf a b Hab), IH.
Qed.

Lemma as_number_dumps (a : num) (v : json num) :
  dumps_number a v -> as_number v = Some a.
Proof. intros [-> | [z [-> ->]]]; reflexivity. Qed.

Lemma as_player_dumps (p : @Server.Player num) (v : json num) :
  dumps_player p v -> as_player v = Some (shown p).
Proof.
  intros [vx [vy [Hx [Hy ->]]]]. unfold as_player, shown.
  destruct (Server.color p) as [[r g] b].
  cbn [get_item dict_get String.eqb Ascii.eqb Bool.eqb].
  now rewrite (as_number_dumps Hx), (as_number_dumps Hy).
Qed.

Lemma player_json_dumps (p : @Server.Player num) :
  dumps_player p (Server.player_json p).
Proof.
  exists (JFloat (Server.x p)), (JFloat (Server.y p)).
  split; [now left | ]. split; [now left | ].
  unfold Server.player_json. now destruct (Server.color p) as [[r g] b].
Qed.

Lemma as_coin_json (c : Coin) : as_coin (num := num) (Server.coin_json c) = Some c.
Proof. now destruct c. Qed.

(** X21. The message of a broadcast is [json.dumps] of the state, with
    each coordinate of a player written as a JSON float or, where the
    server holds an [int], as the JSON integer of that value; the
    document that [broadcast_state] returns is one such message.  Any
    such message that the client receives while listening is buffered,
    and read through the keys the render path uses it gives back the
    state of the server: the time of the broadcast, one player per
    player of the server under the decimal text of its identity, in the
    server's order, with the server's position, color, score and pending
    input, the server's coins in order, the status, and the receipt
    time as stamped. *)
Theorem broadcast_is_read_back
    (g : @Server.GameServer num) (now stamp : num) (message : json num)
    (r : Inbox) :
  (forall sent, Server.broadcast_state g now = Some sent -> dumps_state g now sent) /\
  (dumps_state g now message ->
   listening r = true ->
   exists document,
     receive r stamp (Some message) =
       {| assigned_id := assigned_id r; received := received r ++ [document];
          listening := true |} /\
     as_snapshot document =
       Some {| t := now;
               players := map (fun e => (str (fst e), shown (snd e))) (Server.players g);
               coins := Server.coins g;
               status := if (List.length (Server.players g) <? 2)%nat
                         then "WAITING_FOR_PLAYERS" else "PLAYING";
               recv_time := stamp |}).
Proof.
  split.
  - unfold Server.broadcast_state. intros sent Hsent.
    destruct (Server.clients g) as [ | c0 cl]; [discriminate | ].
    injection Hsent as <-.
    exists (map (fun '(pid, p) => (str pid, Server.player_json p)) (Server.players g)).
    split; [ | reflexivity].
    induction (Server.players g) as [ | [pid p] ps IH]; constructor.
    + split; [reflexivity | apply player_json_dumps].
    + exact IH.
  - intros [entries [Hentries ->]] Hl. eexists. split.
    + unfold receive. rewrite Hl. reflexivity.
    + unfold as_snapshot.
      cbn [get_item dict_get dict_set String.eqb Ascii.eqb Bool.eqb as_number].
      rewrite (all_some_Forall2
                 (fun w => match as_player (snd w) with
                           | Some p => Some (fst w, p)
                           | None => None
                           end)
                 (fun e => (str (fst e), shown (snd e)))
                 (l := Server.players g) (entries := entries)
                 (R := fun e w => fst w = str (fst e) /\ dumps_player (snd e) (snd w))).
      * rewrite map_map.
        rewrite (all_some_map _ (fun c : Coin => c)) by apply as_coin_json.
        rewrite map_id. do 2 f_equal.
        destruct (Z.leb_spec 2 (Z.of_nat (List.length (Server.players g))));
          destruct (Nat.ltb_spec (List.length (Server.players g)) 2);
          try reflexivity; lia.
      * intros e w [Hk Hp]. now rewrite (as_player_dumps Hp), Hk.
      * exact Hentries.
Qed.
End Wire.

(** ** A turn of the client *)

Section Turn.
Context {num : Type} `{PyNum num}.
Import Client.
Local Abbreviation GameClient := (@GameClient num).
Local Abbreviation Snapshot := (@Snapshot num).

Lemma get_render_state_input (now : num) (c : GameClient) (d : option string) :
  get_render_state now (set_current_input c d) =
  (fst (get_render_state now c), set_current_input (snd (get_render_state now c)) d).
Proof.
  unfold get_render_state. cbn [state_buffer set_current_input].
  destruct (trim _ _) as [ | s [ | s' l]]; reflexivity.
Qed.

(** X23. What [get_render_state] returns and what it leaves in the
    buffer depend on the buffer and the clock only, not on what the
    input handling of the turn did: whatever the buffer holds by the
    time of the call (the turn awaits its send in between, and
    [receive_handler] may have appended entries), the state drawn and
    the trimmed buffer are the same after [send_input] as without it,
    for any keys.  [send_input] itself leaves the buffer alone.  The
    client shows movement only once a snapshot of the server brings
    it. *)
Theorem keys_do_not_move_the_picture
    (c : GameClient) (keys : Keys) (now : num) (buffer : list Snapshot) :
  let c' := fst (send_input c keys) in
  state_buffer c' = state_buffer c /\
  fst (get_render_state now (set_state_buffer c' buffer)) =
    fst (get_render_state now (set_state_buffer c buffer)) /\
  state_buffer (snd (get_render_state now (set_state_buffer c' buffer))) =
    state_buffer (snd (get_render_state now (set_state_buffer c buffer))).
Proof.
  intros c'. unfold c', send_input.
  destruct (direction_differs (held_direction keys) (current_input c));
    cbn [fst]; [ | repeat split].
  split; [reflexivity | ].
  change (set_state_buffer (set_current_input c (held_direction keys)) buffer)
    with (set_current_input (set_state_buffer c buffer) (held_direction keys)).
  rewrite get_render_state_input. split; reflexivity.
Qed.
End Turn.

Section Standing.
Import Client.

Lemma SFsub_same (a : float) :
  is_finite a = true -> exists s, SFsub prec emax a a = S754_zero s.
Proof.
  destruct a as [s | s | | s m e]; try discriminate; intros _.
  - destruct s; eexists; reflexivity.
  - exists false. cbn [SFsub]. rewrite Z.min_id. unfold shl_align.
    rewrite Z.sub_diag. cbn [fst]. reflexivity.
Qed.

Lemma clamp_finite (lo hi a : float) :
  is_finite lo = true -> is_finite hi = true ->
  is_finite (py_max lo (py_min hi a)) = true.
Proof.
  intros Hlo Hhi. unfold py_max, py_min, gtb. cbn [ltb binary64].
  destruct (SFltb a hi) eqn:E1.
  - destruct (SFltb lo a) eqn:E2; [ | exact Hlo].
    destruct a as [s | s | | s m e]; try reflexivity; try discriminate.
    destruct s.
    + destruct lo as [sl | sl | | sl ml el]; discriminate.
    + destruct hi as [sh | sh | | sh mh eh]; discriminate.
  - destruct (SFltb lo hi); assumption.
Qed.

Lemma lerp_standing (a alpha : float) :
  is_finite a = true -> is_finite alpha = true ->
  (linear_interpolate a a alpha =? a)%py = true.
Proof.
  intros Ha Hal. unfold linear_interpolate. cbn [add sub mul eqb binary64].
  destruct (SFsub_same a Ha) as [s ->].
  destruct alpha as [sa | sa | | sa ma ea]; try discriminate; cbn [SFmul];
    destruct a as [s0 | s0 | | s0 m0 e0]; try discriminate; cbn [SFadd].
  - destruct s0, (xorb s sa); reflexivity.
  - now apply SFeqb_refl.
  - destruct s0, (xorb s sa); reflexivity.
  - now apply SFeqb_refl.
Qed.

(** X24. In double precision a player that has the same finite
    coordinate in the two entries that head the buffer is rendered at
    that coordinate, whatever the weight is: a player that stands still
    does not jitter. *)
Theorem standing_player_is_rendered_in_place (now : float) (c : @GameClient float) :
  (2 <= List.length (state_buffer c))%nat ->
  exists prev next rest,
    state_buffer (snd (get_render_state now c)) = prev :: next :: rest /\
    forall pid p p_prev,
      In (pid, p) (fst (fst (fst (get_render_state now c)))) ->
      dict_get String.eqb (players prev) pid = Some p_prev ->
      exists p_next,
        In (pid, p_next) (players next) /\
        (x p_next = x p_prev -> is_finite (x p_prev) = true ->
         (x p =? x p_prev)%py = true) /\
        (y p_next = y p_prev -> is_finite (y p_prev) = true ->
         (y p =? y p_prev)%py = true).
Proof.
  intros Hlen.
  destruct (trim_two (now - INTERPOLATION_OFFSET)%py (state_buffer c) Hlen)
    as [prev [next [rest Htrim]]].
  exists prev, next, rest.
  split; [now rewrite get_render_state_buffer | ].
  intros pid p p_prev Hin Hget.
  rewrite (get_render_state_two now c Htrim) in Hin. cbn [fst] in Hin.
  apply rendered_entry in Hin. destruct Hin as [p_next [Hin Hp]].
  exists p_next. split; [exact Hin | ].
  unfold interpolate_player in Hp. rewrite Hget in Hp. subst p. cbn [x y].
  unfold compute_alpha.
  split; intros -> Hf; apply lerp_standing; try exact Hf;
    apply clamp_finite; reflexivity.
Qed.
End Standing.

(** ** The further theorems at the sample inputs *)

Section MoreWitnesses.
Import Server.
#[local] Existing Instance Sample.nanosecond.

Lemma leaving_undoes_joining_witness :
  unregister (fst (register (game Sample.playing) 3%nat 250 250 9 9 9)) 3%nat =
  set_next_player_id (game Sample.playing) (next_player_id (game Sample.playing) + 1).
Proof.
  assert (Hnew : dict_get Nat.eqb (clients (game Sample.playing)) 3%nat = None)
    by (vm_compute; reflexivity).
  exact (leaving_undoes_joining (of_Z 0) (of_Z 0) (of_Z 0) Sample.steered
           3%nat 250 250 9 9 9 Hnew).
Defined.

Lemma input_message_sets_only_the_input_witness :
  dict_get Z.eqb
    (players (apply_message (game Sample.lobby) 1%nat (Some Sample.go_right))) 1 =
  Some {| x := of_Z 100; y := of_Z 100; color := (255, 0, 0); score := 0;
          input := JStr "RIGHT" |}.
Proof.
  assert (Hws : dict_get Nat.eqb (clients (game Sample.lobby)) 1%nat = Some 1)
    by (vm_compute; reflexivity).
  assert (Hpid : 1 <> 0) by lia.
  assert (Hp : dict_get Z.eqb (players (game Sample.lobby)) 1 =
               Some {| x := of_Z 100; y := of_Z 100; color := (255, 0, 0);
                       score := 0; input := JNull |})
    by (vm_compute; reflexivity).
  assert (Hty : get_item Sample.go_right "type" = Some (JStr "input"))
    by (vm_compute; reflexivity).
  assert (Hin : is_str (JStr "input" : json float) "input" = true)
    by (vm_compute; reflexivity).
  assert (Hd : get_item Sample.go_right "direction" = Some (JStr "RIGHT"))
    by (vm_compute; reflexivity).
  destruct (input_message_sets_only_the_input (game Sample.lobby) 1%nat
              Sample.go_right Hws Hpid Hp Hty Hin Hd) as [Hset _].
  exact Hset.
Defined.

Lemma held_direction_reaches_the_server_witness :
  apply_message
    (apply_message (game Sample.lobby) 1%nat (Some (Client.input_message (Some "UP"))))
    1%nat (Some (Client.input_message None)) =
  apply_message (game Sample.lobby) 1%nat (Some (Client.input_message None)).
Proof.
  assert (Hws : dict_get Nat.eqb (clients (game Sample.lobby)) 1%nat = Some 1)
    by (vm_compute; reflexivity).
  assert (Hpid : 1 <> 0) by lia.
  assert (Hp : dict_get Z.eqb (players (game Sample.lobby)) 1 =
               Some {| x := of_Z 100; y := of_Z 100; color := (255, 0, 0);
                       score := 0; input := JNull |})
    by (vm_compute; reflexivity).
  destruct (held_direction_reaches_the_server (game Sample.lobby) 1%nat
              (Some "UP") None Hws Hpid Hp) as [_ Hlast].
  exact Hlast.
Defined.

Lemma color_stays_and_score_grows_witness :
  color Sample.player1_after = color Sample.player1 /\
  score Sample.player1 <= score Sample.player1_after.
Proof.
  assert (Hp : dict_get Z.eqb (players (game Sample.playing)) 1 = Some Sample.player1)
    by (vm_compute; reflexivity).
  assert (Hp' : dict_get Z.eqb
                  (players (game (run Sample.playing
                                    [Tick Sample.tick_now Sample.tick_dt 110 100]))) 1 =
                Some Sample.player1_after)
    by (vm_compute; reflexivity).
  exact (color_stays_and_score_grows (of_Z 0) (of_Z 0) (of_Z 0) Sample.steered
           [Tick Sample.tick_now Sample.tick_dt 110 100] 1 Hp Hp').
Defined.

Lemma players_stay_inside_the_walls_witness : inside Sample.player1_after.
Proof.
  assert (Hdraws : Forall (@draws_in_range float) Sample.ticked)
    by (repeat constructor; cbn; lia).
  assert (Hin : In (1, Sample.player1_after)
                  (players (game (run (boot (of_Z 0) (of_Z 0) (of_Z 0)) Sample.ticked))))
    by (vm_compute; left; reflexivity).
  exact (players_stay_inside_the_walls (of_Z 0) (of_Z 0) (of_Z 0)
           1 Sample.player1_after Hdraws Hin).
Defined.

Lemma new_player_pops_in_witness :
  exists prev next rest,
    Client.state_buffer (snd (Client.get_render_state Sample.now Sample.client)) =
    prev :: next :: rest.
Proof.
  assert (Hlen : (2 <= List.length (Client.state_buffer Sample.client))%nat)
    by (vm_compute; lia).
  destruct (new_player_pops_in Sample.now Sample.client Hlen)
    as [prev [next [rest [Hbuf _]]]].
  exists prev, next, rest. exact Hbuf.
Defined.

Lemma receive_sorts_the_documents_witness :
  Client.receive Sample.inbox Sample.now (Some (JDict Sample.handshake)) =
  {| Client.assigned_id := Some (JInt 1); Client.received := [];
     Client.listening := true |}.
Proof.
  assert (Hl : Client.listening Sample.inbox = true) by reflexivity.
  destruct (receive_sorts_the_documents Sample.inbox Sample.now Sample.handshake Hl)
    as [Hinit _].
  exact (Hinit (JInt 1) eq_refl eq_refl).
Defined.

Lemma broadcast_is_read_back_witness :
  exists document,
    Client.receive Sample.inbox Sample.now (Some Sample.wire_message) =
      {| Client.assigned_id := None; Client.received := [document];
         Client.listening := true |} /\
    Client.as_snapshot document =
      Some {| Client.t := of_Z 10;
              Client.players :=
                [("1", {| Client.x := of_Z 100; Client.y := of_Z 100;
                          Client.color := (255, 0, 0); Client.score := 0;
                          Client.input := Some (JStr "RIGHT") |});
                 ("2", {| Client.x := of_Z 400; Client.y := of_Z 300;
                          Client.color := (0, 255, 0); Client.score := 0;
                          Client.input := Some JNull |})];
              Client.coins := [];
              Client.status := "PLAYING";
              Client.recv_time := Sample.now |}.
Proof.
  assert (Hint : forall z : Z, dumps_number (of_Z z : float) (JInt z))
    by (intros z; right; now exists z).
  assert (Hsent : dumps_state (game Sample.playing) Sample.tick_now
                    Sample.wire_message).
  { eexists. split; [ | reflexivity].
    repeat constructor; cbn [fst snd]; eexists; eexists;
      (split; [apply Hint | split; [apply Hint | reflexivity]]). }
  assert (Hl : Client.listening Sample.inbox = true) by reflexivity.
  destruct (broadcast_is_read_back (game Sample.playing) Sample.tick_now
              Sample.now Sample.wire_message Sample.inbox) as [_ Hread].
  exact (Hread Hsent Hl).
Defined.

Lemma standing_player_is_rendered_in_place_witness :
  exists prev next rest,
    Client.state_buffer (snd (Client.get_render_state Sample.now Sample.client)) =
    prev :: next :: rest.
Proof.
  assert (Hlen : (2 <= List.length (Client.state_buffer Sample.client))%nat)
    by (vm_compute; lia).
  destruct (standing_player_is_rendered_in_place Sample.now Sample.client Hlen)
    as [prev [next [rest [Hbuf _]]]].
  exists prev, next, rest. exact Hbuf.
Defined.
End MoreWitnesses.
